(** * serial-keyboard: the dancepad firmware

    A shallow embedding of [arduino-src/dancepad/dancepad.ino] together with
    the [Timer], [Key] and [State] structures it is compiled against, and the
    properties of the debounce timer, the key scan ([Key_tick]) and the setup
    protocol ([State_run]).

    Conventions.
    - [unsigned long] is 32 bits wide: sums and differences are reduced
      modulo [2^32] ([wrap32]); the cast to [signed long] is [signed32].
    - [byte] and [unsigned char] values read from the serial line are
      [Byte.byte]; inside the program they are the integers [0..255].
    - [int] counters ([garbage], [static_runs], [key_count], loop indices)
      are integers; their overflow is undefined in the source and is not
      modelled.
    - The hardware the sketch talks to is an oracle [Hardware]: the n-th
      observation of the outside world (a call of [micros] or of
      [digitalRead]) is answered by [hw_micros n] and [hw_low n pin].
    - The sketch runs on one thread here: [noInterrupts]/[interrupts] are
      no-ops and [Key_handle_interrupt] is never called asynchronously. *)

From Stdlib Require Import ZArith Bool List Lia String.
From Stdlib Require Import Strings.Byte.
From stdpp Require Import base list.

Local Open Scope Z_scope.

(* ===================================================================== *)
(** ** Machine integers *)
(* ===================================================================== *)

Module Word.

(** [unsigned long] arithmetic: reduction modulo [2^32]. *)
Definition wrap32 (z : Z) : Z := z mod 2 ^ 32.

(** [(signed long) x] for [x] an [unsigned long]: two's complement. *)
Definition signed32 (x : Z) : Z := if x <? 2 ^ 31 then x else x - 2 ^ 32.

(** [(byte) x]. *)
Definition wrap8 (z : Z) : Z := z mod 2 ^ 8.

(** The integer a received byte stands for. *)
Definition byte_Z (c : byte) : Z := Z.of_N (Byte.to_N c).

End Word.
Import Word.

(* ===================================================================== *)
(** ** structs: Timer, Key, State *)
(* ===================================================================== *)

Definition MAX_KEYS : Z := 128.

(** The largest [int] where an [int] has 16 bits, as on the AVR boards;
    no C implementation has a smaller one. *)
Definition INT_MAX : Z := 32767.

Definition MAGIC_NUMBER : list byte :=
  ["S"; "e"; "r"; "K"; "e"; "y"; "0"; "1"]%byte.

Record Timer := mkTimer { timeout : Z; enabled : bool }.

Module Timer.

(** [Timer::init]: only the flag is written. *)
Definition init (t : Timer) : Timer :=
  {| timeout := timeout t; enabled := false |}.

(** [Timer::set]. *)
Definition set (deadline : Z) (t : Timer) : Timer :=
  {| timeout := deadline; enabled := true |}.

(** [Timer::check]: the result and the timer afterwards. *)
Definition check (now : Z) (t : Timer) : bool * Timer :=
  let expired :=
    enabled t && (signed32 (wrap32 (now - timeout t)) >=? 0) in
  (expired,
   if expired then {| timeout := timeout t; enabled := false |} else t).

End Timer.

Record Key := mkKey { pin : Z; was_down : bool; debounce_timer : Timer }.

Module Key.

(** [Key::init]: [pin] is a [byte] field. *)
Definition init (p : Z) (k : Key) : Key :=
  {| pin := wrap8 p;
     was_down := false;
     debounce_timer := Timer.init (debounce_timer k) |}.

End Key.

Record State := mkState {
  debounce_micros : Z;
  await_smoothness : bool;
  enable_interrupts : bool;
  keys : list Key;
  key_count : Z }.

Module State.

(** [State::init]: the [keys] array is left as it is. *)
Definition init (s : State) : State :=
  {| debounce_micros := 1000;
     await_smoothness := true;
     enable_interrupts := false;
     keys := keys s;
     key_count := 0 |}.

Definition with_keys (ks : list Key) (s : State) : State :=
  {| debounce_micros := debounce_micros s;
     await_smoothness := await_smoothness s;
     enable_interrupts := enable_interrupts s;
     keys := ks;
     key_count := key_count s |}.

Definition with_key_count (n : Z) (s : State) : State :=
  {| debounce_micros := debounce_micros s;
     await_smoothness := await_smoothness s;
     enable_interrupts := enable_interrupts s;
     keys := keys s;
     key_count := n |}.

Definition with_debounce_micros (d : Z) (s : State) : State :=
  {| debounce_micros := d;
     await_smoothness := await_smoothness s;
     enable_interrupts := enable_interrupts s;
     keys := keys s;
     key_count := key_count s |}.

Definition with_await_smoothness (a : bool) (s : State) : State :=
  {| debounce_micros := debounce_micros s;
     await_smoothness := a;
     enable_interrupts := enable_interrupts s;
     keys := keys s;
     key_count := key_count s |}.

Definition with_enable_interrupts (e : bool) (s : State) : State :=
  {| debounce_micros := debounce_micros s;
     await_smoothness := await_smoothness s;
     enable_interrupts := e;
     keys := keys s;
     key_count := key_count s |}.

End State.

(* ===================================================================== *)
(** ** The board: globals, serial port, pins *)
(* ===================================================================== *)

(** What the sketch sends to [Serial], call by call. *)
Inductive Out :=
| Write (c : Z)              (* Serial.write(byte) *)
| WriteStr (s : string)      (* Serial.write("...") *)
| Print (s : string)         (* Serial.print("...") *)
| PrintNum (n : Z)           (* Serial.print(integer) *)
| PrintMillis (micros : Z)   (* Serial.print(((float)micros)/1000.0) *)
| Println (s : string)       (* Serial.println("...") *)
| PrintlnNum (n : Z)         (* Serial.println(integer) *)
| PrintlnEmpty.              (* Serial.println() *)

(** Calls that configure a pin. *)
Inductive PinOp :=
| PinModeInputPullup (p : Z)
| PinModeInput (p : Z)
| AttachInterrupt (p : Z)
| DetachInterrupt (p : Z).

Record Board := mkBoard {
  static_state : State;      (* State static_state *)
  static_runs : Z;           (* int static_runs *)
  min_tick_time : Z;         (* the static local of Key_tick *)
  observations : nat;        (* calls of micros/digitalRead made so far *)
  serial_in : list byte;     (* bytes the host has sent, not yet read *)
  serial_out : list Out;     (* what the sketch has sent, oldest first *)
  pin_ops : list PinOp }.    (* pin configuration calls, oldest first *)

Record Hardware := mkHardware {
  hw_micros : nat -> Z;          (* the clock at the n-th observation *)
  hw_low : nat -> Z -> bool }.   (* is the pin LOW at the n-th observation *)

Module Board.

Definition with_state (s : State) (b : Board) : Board :=
  {| static_state := s; static_runs := static_runs b;
     min_tick_time := min_tick_time b; observations := observations b;
     serial_in := serial_in b; serial_out := serial_out b;
     pin_ops := pin_ops b |}.

Definition with_runs (n : Z) (b : Board) : Board :=
  {| static_state := static_state b; static_runs := n;
     min_tick_time := min_tick_time b; observations := observations b;
     serial_in := serial_in b; serial_out := serial_out b;
     pin_ops := pin_ops b |}.

Definition with_min_tick_time (t : Z) (b : Board) : Board :=
  {| static_state := static_state b; static_runs := static_runs b;
     min_tick_time := t; observations := observations b;
     serial_in := serial_in b; serial_out := serial_out b;
     pin_ops := pin_ops b |}.

Definition observe (b : Board) : Board :=
  {| static_state := static_state b; static_runs := static_runs b;
     min_tick_time := min_tick_time b; observations := S (observations b);
     serial_in := serial_in b; serial_out := serial_out b;
     pin_ops := pin_ops b |}.

Definition with_serial_in (l : list byte) (b : Board) : Board :=
  {| static_state := static_state b; static_runs := static_runs b;
     min_tick_time := min_tick_time b; observations := observations b;
     serial_in := l; serial_out := serial_out b;
     pin_ops := pin_ops b |}.

Definition emit (o : Out) (b : Board) : Board :=
  {| static_state := static_state b; static_runs := static_runs b;
     min_tick_time := min_tick_time b; observations := observations b;
     serial_in := serial_in b; serial_out := serial_out b ++ [o];
     pin_ops := pin_ops b |}.

Definition pin_op (o : PinOp) (b : Board) : Board :=
  {| static_state := static_state b; static_runs := static_runs b;
     min_tick_time := min_tick_time b; observations := observations b;
     serial_in := serial_in b; serial_out := serial_out b;
     pin_ops := pin_ops b ++ [o] |}.

End Board.

(* ===================================================================== *)
(** ** Two small monads *)
(* ===================================================================== *)

(** Code that always returns: a state monad over the board. *)
Definition St (A : Type) : Type := Board -> A * Board.

#[export] Instance St_ret : MRet St := fun A a b => (a, b).
#[export] Instance St_bind : MBind St :=
  fun A B f m b => let (a, b') := m b in f a b'.

(** Code that may wait for the host. [Blocked]: [next_serial_byte] spins on
    an empty receive buffer. [Spinning]: a loop of the sketch was still
    running when the iterations granted to it were used up. *)
Inductive Outcome (A : Type) :=
| Ok (a : A) (b : Board)
| Blocked (b : Board)
| Spinning (b : Board).
Arguments Ok {A} a b.
Arguments Blocked {A} b.
Arguments Spinning {A} b.

Definition M (A : Type) : Type := Board -> Outcome A.

#[export] Instance M_ret : MRet M := fun A a b => Ok a b.
#[export] Instance M_bind : MBind M :=
  fun A B f m b =>
    match m b with
    | Ok a b' => f a b'
    | Blocked b' => Blocked b'
    | Spinning b' => Spinning b'
    end.

Definition lift {A} (m : St A) : M A := fun b => let (a, b') := m b in Ok a b'.

Definition get_state : St State := fun b => (static_state b, b).
Definition put_state (s : State) : St unit :=
  fun b => (tt, Board.with_state s b).
Definition modify_state (f : State -> State) : St unit :=
  fun b => (tt, Board.with_state (f (static_state b)) b).
Definition modify_key (i : Z) (f : Key -> Key) : St unit :=
  modify_state (fun s => State.with_keys (alter f (Z.to_nat i) (keys s)) s).
Definition get_min_tick_time : St Z := fun b => (min_tick_time b, b).
Definition put_min_tick_time (t : Z) : St unit :=
  fun b => (tt, Board.with_min_tick_time t b).
Definition get_static_runs : St Z := fun b => (static_runs b, b).
Definition put_static_runs (n : Z) : St unit :=
  fun b => (tt, Board.with_runs n b).
Definition serial (o : Out) : St unit := fun b => (tt, Board.emit o b).
Definition pin_call (o : PinOp) : St unit := fun b => (tt, Board.pin_op o b).

(** [for (int i = start; ...; i++) body], [n] iterations. *)
Fixpoint for_loop (n : nat) (i : Z) (body : Z -> St unit) : St unit :=
  match n with
  | O => mret tt
  | S n' => body i ;; for_loop n' (i + 1) body
  end.

(* ===================================================================== *)
(** ** dancepad.ino *)
(* ===================================================================== *)

Definition SETUPCMD_FINISH : Z := 0x0F.
Definition SETUPCMD_ADD_KEY : Z := 0xAD.
Definition SETUPCMD_SET_DEBOUNCE : Z := 0xDB.
Definition SETUPCMD_AWAIT_SMOOTHNESS : Z := 0xAE.
Definition CMD_RESET : Z := 0xEE.
Definition SETUPCMD_ENABLE_INTERRUPTS : Z := 0xEA.

Definition set_timer (t : Timer) (k : Key) : Key :=
  {| pin := pin k; was_down := was_down k; debounce_timer := t |}.

Definition set_was_down (d : bool) (k : Key) : Key :=
  {| pin := pin k; was_down := d; debounce_timer := debounce_timer k |}.

(** The event byte [siii_iiii] of key [i]. *)
Definition event_byte (i : Z) (is_down : bool) : Z :=
  wrap8 (Z.lor (Z.land i 0x7F) (if is_down then 0x80 else 0x00)).

Section Sketch.

Variable hw : Hardware.

(** [micros()]: the clock reading, as an [unsigned long]. *)
Definition micros : St Z :=
  fun b => (wrap32 (hw_micros hw (observations b)), Board.observe b).

(** [digitalRead(pin) == LOW]. *)
Definition digitalRead_is_LOW (p : Z) : St bool :=
  fun b => (hw_low hw (observations b) p, Board.observe b).

Definition set_debounce (debounce : Z) : St unit :=
  modify_state (State.with_debounce_micros debounce);;
  serial (Print "set debounce to ");;
  serial (PrintMillis debounce);;
  serial (Println "ms").

Definition set_await_smoothness (await : bool) : St unit :=
  modify_state (State.with_await_smoothness await);;
  serial (Print "key state changes ");;
  (if negb await then serial (Print "don't ") else mret tt);;
  serial (Println "reset the debounce timer").

(** The source declares [set_enable_interrupts] with result [bool] and
    has no [return] in it; its one caller drops the result. The definition
    gives what the body does up to its last statement and takes the call
    to return to the caller, which the source leaves undefined. *)
Definition set_enable_interrupts (enable : bool) : St unit :=
  modify_state (State.with_enable_interrupts enable);;
  (if negb enable then serial (Print "not ") else mret tt);;
  serial (Println "listening to pin state change interrupts").

Definition Key_setup (p : Z) : St unit :=
  s ← get_state;
  if key_count s <? MAX_KEYS then
    modify_key (key_count s) (Key.init p);;
    serial (Print "added key ");;
    serial (PrintNum (key_count s));;
    serial (Print " to pin ");;
    serial (PrintlnNum p);;
    modify_state (State.with_key_count (key_count s + 1))
  else
    serial (Println "max key limit reached").

(** [key->debounce_timer.check_now()] for [key = &state->keys[i]]. *)
Definition check_now (i : Z) (key : Key) : St bool :=
  now ← micros;
  let r := Timer.check now (debounce_timer key) in
  modify_key i (set_timer (snd r));;
  mret (fst r).

(** The body of the loop of [Key_tick] for index [i]. An index outside
    the array does not occur while [key_count <= MAX_KEYS]. *)
Definition Key_tick_key (i : Z) : St unit :=
  s ← get_state;
  match keys s !! Z.to_nat i with
  | None => mret tt
  | Some key =>
    is_down ← digitalRead_is_LOW (pin key);
    if negb (Bool.eqb (was_down key) is_down) then
      debounce ← check_now i key;
      (if negb debounce then
         serial (Write (event_byte i is_down));;
         modify_key i (set_was_down is_down)
       else mret tt);;
      (if await_smoothness s || negb debounce then
         now ← micros;
         modify_key i
           (fun k => set_timer
              (Timer.set (wrap32 (now + debounce_micros s))
                         (debounce_timer k)) k)
       else mret tt)
    else mret tt
  end.

(** [Key_tick]. Its loop leaves [key_count] alone, so the number of
    iterations is fixed when the loop starts. *)
Definition Key_tick : St unit :=
  now ← micros;
  not_before ← get_min_tick_time;
  if now <? not_before then mret tt
  else
    s ← get_state;
    for_loop (Z.to_nat (key_count s)) 0 Key_tick_key;;
    now' ← micros;
    put_min_tick_time (wrap32 (now' + 50)).

(** [next_serial_byte]: waits until the host has sent a byte. *)
Definition next_serial_byte : M Z :=
  fun b =>
    match serial_in b with
    | [] => Blocked b
    | c :: rest => Ok (byte_Z c) (Board.with_serial_in rest b)
    end.

(** [Serial.read()]: [-1] when nothing has been received. *)
Definition Serial_read : St Z :=
  fun b =>
    match serial_in b with
    | [] => (-1, b)
    | c :: rest => (byte_Z c, Board.with_serial_in rest b)
    end.

(** [MAGIC_NUMBER[i]]. *)
Definition magic_at (i : Z) : Z :=
  byte_Z (nth (Z.to_nat i) MAGIC_NUMBER "000"%byte).

(** The loop that reads the magic number; it returns [garbage]. In the
    source [garbage] is an [int]; here it is an integer, which is the same
    as long as the count is at most [INT_MAX]. *)
Fixpoint State_run_resync (fuel : nat) (magic_idx garbage : Z) : M Z :=
  if magic_idx <? 8 then
    match fuel with
    | O => fun b => Spinning b
    | S fuel' =>
      c ← next_serial_byte;
      let idx := magic_idx + 1 in
      if negb (c =? magic_at magic_idx)
      then State_run_resync fuel' 0 (garbage + idx)
      else State_run_resync fuel' idx garbage
    end
  else mret garbage.

(** [while (payload_len > 0) { next_serial_byte(); payload_len--; }]. *)
Fixpoint read_excess (payload_len : nat) : M unit :=
  match payload_len with
  | O => mret tt
  | S n => next_serial_byte;; read_excess n
  end.

(** The [switch] of the command loop: [None] is [goto quit], otherwise
    the values of [process_commands] and [payload_len] after it. *)
Definition State_run_switch (cmd payload_len : Z) : M (option (bool * Z)) :=
  if cmd =? SETUPCMD_FINISH then
    lift (serial (Println "finished handling setup commands"));;
    mret (Some (false, payload_len))
  else if cmd =? SETUPCMD_ADD_KEY then
    if payload_len <? 1 then
      lift (serial (Println "ADD_KEY command too short"));;
      mret (Some (true, payload_len))
    else
      p ← next_serial_byte;
      lift (Key_setup p);;
      mret (Some (true, payload_len - 1))
  else if cmd =? SETUPCMD_SET_DEBOUNCE then
    if payload_len <? 4 then
      lift (serial (Println "SET_DEBOUNCE command too short"));;
      mret (Some (true, payload_len))
    else
      b3 ← next_serial_byte;
      b2 ← next_serial_byte;
      b1 ← next_serial_byte;
      b0 ← next_serial_byte;
      lift (set_debounce
              (Z.lor (Z.lor (Z.lor (wrap32 (Z.shiftl b3 24))
                                   (wrap32 (Z.shiftl b2 16)))
                            (wrap32 (Z.shiftl b1 8)))
                     b0));;
      mret (Some (true, payload_len - 4))
  else if cmd =? SETUPCMD_AWAIT_SMOOTHNESS then
    if payload_len <? 1 then
      lift (serial (Println "AWAIT_SMOOTHNESS command too short"));;
      mret (Some (true, payload_len))
    else
      v ← next_serial_byte;
      lift (set_await_smoothness (negb (v =? 0)));;
      mret (Some (true, payload_len - 1))
  else if cmd =? CMD_RESET then
    lift (serial (Println "reset requested"));;
    mret None
  else if cmd =? SETUPCMD_ENABLE_INTERRUPTS then
    if payload_len <? 1 then
      lift (serial (Println "ENABLE_INTERRUPTS command too short"));;
      mret (Some (true, payload_len))
    else
      v ← next_serial_byte;
      lift (set_enable_interrupts (negb (v =? 0)));;
      mret (Some (true, payload_len - 1))
  else
    lift (serial (Print "unknown command: "));;
    lift (serial (PrintlnNum cmd));;
    mret (Some (true, payload_len)).

(** One iteration of the command loop. *)
Definition State_run_command : M (option bool) :=
  cmd ← next_serial_byte;
  hi ← next_serial_byte;
  lo ← next_serial_byte;
  let payload_len := Z.lor (Z.shiftl hi 8) lo in
  r ← State_run_switch cmd payload_len;
  match r with
  | None => mret None
  | Some (process_commands, payload_len') =>
    read_excess (Z.to_nat payload_len');;
    mret (Some process_commands)
  end.

(** [while (process_commands) ...]: [true] when the loop ends by itself,
    [false] when it is left by [goto quit]. *)
Fixpoint State_run_commands (fuel : nat) : M bool :=
  match fuel with
  | O => fun b => Spinning b
  | S fuel' =>
    r ← State_run_command;
    match r with
    | None => mret false
    | Some true => State_run_commands fuel'
    | Some false => mret true
    end
  end.
(** "Open pins": the body of the loop for index [i]. *)
Definition State_run_open_pin (i : Z) : St unit :=
  s ← get_state;
  match keys s !! Z.to_nat i with
  | None => mret tt
  | Some key =>
    let already_setup :=
      existsb (fun k => pin k =? pin key) (take (Z.to_nat i) (keys s)) in
    if negb already_setup then
      serial (Print "opening pin ");;
      serial (PrintlnNum (pin key));;
      pin_call (PinModeInputPullup (pin key));;
      (if enable_interrupts s
       then pin_call (AttachInterrupt (pin key)) else mret tt)
    else mret tt
  end.

(** One iteration of the input loop: [true] is [goto quit]. *)
Definition State_run_poll : St bool :=
  Key_tick;;
  c ← Serial_read;
  mret (c =? CMD_RESET).

(** [while (true) { ... }]: it is only left by [goto quit]. *)
Fixpoint State_run_input (fuel : nat) : M unit :=
  match fuel with
  | O => fun b => Spinning b
  | S fuel' =>
    quit ← lift State_run_poll;
    if (quit : bool) then mret tt else State_run_input fuel'
  end.

(** "Cleanup": the body of the loop for index [i]. *)
Definition State_run_cleanup_pin (i : Z) : St unit :=
  s ← get_state;
  match keys s !! Z.to_nat i with
  | None => mret tt
  | Some key =>
    pin_call (PinModeInput (pin key));;
    pin_call (DetachInterrupt (pin key))
  end.

(** What [State_run] sends once the magic number has been read. *)
Definition State_run_hello (garbage : Z) : St unit :=
  serial (WriteStr "SerKey01");;
  serial (Print "read ");;
  serial (PrintNum garbage);;
  serial (Println " bytes of garbage before magic number");;
  serial (Print "run #");;
  runs ← get_static_runs;
  serial (PrintNum runs);;
  serial (Println " since last reset");;
  serial (Println "handling setup commands").

(** [State_run] from [state->init()] to the end of the loop that reads
    the magic number. *)
Definition State_run_handshake (fuel : nat) : M Z :=
  lift (modify_state State.init);;
  State_run_resync fuel 0 0.

(** [State_run] up to the end of the command loop. *)
Definition State_run_setup (fuel : nat) : M bool :=
  garbage ← State_run_handshake fuel;
  lift (State_run_hello garbage);;
  State_run_commands fuel.

Definition State_run_open_pins : St unit :=
  s ← get_state;
  for_loop (Z.to_nat (key_count s)) 0 State_run_open_pin;;
  serial (Println "finished setting up, handling input");;
  serial PrintlnEmpty.

Definition State_run_cleanup : St unit :=
  s ← get_state;
  for_loop (Z.to_nat (key_count s)) 0 State_run_cleanup_pin.

(** [State_run]. Each of its three unbounded loops may run [fuel]
    iterations. *)
Definition State_run (fuel : nat) : M unit :=
  finished ← State_run_setup fuel;
  (if (finished : bool) then
     lift State_run_open_pins;;
     State_run_input fuel
   else mret tt);;
  lift State_run_cleanup.

(** [loop]: every iteration is one session. *)
Definition loop (fuel : nat) : M unit :=
  lift (runs ← get_static_runs; put_static_runs (runs + 1));;
  State_run fuel.

End Sketch.

(** The board after power-up: globals are zero-initialised. *)
Definition power_up (input : list byte) : Board :=
  {| static_state :=
       {| debounce_micros := 0; await_smoothness := false;
          enable_interrupts := false;
          keys := replicate (Z.to_nat MAX_KEYS)
                    {| pin := 0; was_down := false;
                       debounce_timer := {| timeout := 0; enabled := false |} |};
          key_count := 0 |};
     static_runs := 0;
     min_tick_time := 0;
     observations := 0;
     serial_in := input;
     serial_out := [];
     pin_ops := [] |}.

(* ===================================================================== *)
(** ** Auxiliary definitions for the statements *)
(* ===================================================================== *)

(** Successive calls of [Timer::check] with nothing in between. *)
Fixpoint check_each (nows : list Z) (t : Timer) : list bool * Timer :=
  match nows with
  | [] => ([], t)
  | now :: rest =>
    let r := Timer.check now t in
    let rs := check_each rest (snd r) in
    (fst r :: fst rs, snd rs)
  end.

(** Commands the [switch] of [State_run] has a case for. *)
Definition known_command (cmd : Z) : bool :=
  (cmd =? SETUPCMD_FINISH) || (cmd =? SETUPCMD_ADD_KEY)
  || (cmd =? SETUPCMD_SET_DEBOUNCE) || (cmd =? SETUPCMD_AWAIT_SMOOTHNESS)
  || (cmd =? CMD_RESET) || (cmd =? SETUPCMD_ENABLE_INTERRUPTS).

(** A command the device does not act on: declared shorter than the
    payload it reads, or unknown. *)
Definition rejected (cmd payload_len : Z) : bool :=
  (cmd =? SETUPCMD_ADD_KEY) && (payload_len <? 1)
  || (cmd =? SETUPCMD_SET_DEBOUNCE) && (payload_len <? 4)
  || (cmd =? SETUPCMD_AWAIT_SMOOTHNESS) && (payload_len <? 1)
  || (cmd =? SETUPCMD_ENABLE_INTERRUPTS) && (payload_len <? 1)
  || negb (known_command cmd).

(** What is logged for a rejected command. *)
Definition rejection_log (cmd : Z) : list Out :=
  if cmd =? SETUPCMD_ADD_KEY then [Println "ADD_KEY command too short"]
  else if cmd =? SETUPCMD_SET_DEBOUNCE
  then [Println "SET_DEBOUNCE command too short"]
  else if cmd =? SETUPCMD_AWAIT_SMOOTHNESS
  then [Println "AWAIT_SMOOTHNESS command too short"]
  else if cmd =? SETUPCMD_ENABLE_INTERRUPTS
  then [Println "ENABLE_INTERRUPTS command too short"]
  else [Print "unknown command: "; PrintlnNum cmd].

(** The payload length a header declares, big-endian. *)
Definition declared_length (hi lo : byte) : Z :=
  Z.lor (Z.shiftl (byte_Z hi) 8) (byte_Z lo).

(** The board after [n] iterations of the input loop, when none of them
    left it. *)
Fixpoint polls (hw : Hardware) (n : nat) (b : Board) : Board :=
  match n with
  | O => b
  | S n' => polls hw n' (snd (State_run_poll hw b))
  end.

(** The board after a sequence of [Serial] calls. *)
Definition emit_all (log : list Out) (b : Board) : Board :=
  fold_left (fun b' o => Board.emit o b') log b.

(** What a scan of the keys leaves alone: the receive buffer, the pins'
    configuration, the run counter and the settings; what was sent stays
    sent, and observations are only added. *)
Record scan_frame (b b' : Board) : Prop := mk_scan_frame {
  sf_serial_in : serial_in b' = serial_in b;
  sf_pin_ops : pin_ops b' = pin_ops b;
  sf_static_runs : static_runs b' = static_runs b;
  sf_debounce_micros :
    debounce_micros (static_state b') = debounce_micros (static_state b);
  sf_await_smoothness :
    await_smoothness (static_state b') = await_smoothness (static_state b);
  sf_enable_interrupts :
    enable_interrupts (static_state b') = enable_interrupts (static_state b);
  sf_key_count : key_count (static_state b') = key_count (static_state b);
  sf_observations : (observations b <= observations b')%nat;
  sf_serial_out : exists events, serial_out b' = serial_out b ++ events }.

(** The receive buffer is as before. *)
Definition same_input (b b' : Board) : Prop := serial_in b' = serial_in b.

(** A computation relates every board to the board it produces. *)
Definition keeps (R : Board -> Board -> Prop) {A} (m : St A) : Prop :=
  forall b, R b (snd (m b)).

(** A board no observation of which sees a key pressed, with a clock that
    advances by 100 microseconds per observation. *)
Definition idle_hw : Hardware :=
  {| hw_micros := fun n => 100 * Z.of_nat n; hw_low := fun _ _ => false |}.

(** No key whose raw state is [raw] has a change that is not reported. *)
Definition up_to_date (raw : Z -> bool) (b : Board) : bool :=
  forallb (fun k => Bool.eqb (was_down k) (raw (pin k)))
          (take (Z.to_nat (key_count (static_state b)))
                (keys (static_state b))).

(** ** A session used in the examples

    The host sends the magic number, registers one key on pin 5 and
    finishes the setup; the settings are the defaults (debounce 1000
    microseconds, [await_smoothness] on). *)
Definition one_key_session : list byte :=
  (MAGIC_NUMBER ++ [xad; x00; x01; x05] ++ [x0f; x00; x00])%byte.

(** The board when the input loop of that session starts. *)
Definition streaming_board : Board :=
  match State_run_setup 20 (power_up one_key_session) with
  | Ok true b => snd (State_run_open_pins b)
  | _ => power_up []
  end.

(** The key is down for the first three observations and up from then on;
    the clock advances by 100 microseconds per observation. *)
Definition press_release_hw : Hardware :=
  {| hw_micros := fun n => 100 * Z.of_nat n;
     hw_low := fun n _ => (n <? 3)%nat |}.

(** The same, but the clock jumps ahead by 5000 microseconds after the
    first scan: the key is released long after the debounce time. *)
Definition late_release_hw : Hardware :=
  {| hw_micros := fun n => if (n <? 5)%nat then 100 * Z.of_nat n
                           else 5000 + 100 * Z.of_nat n;
     hw_low := fun n _ => (n <? 3)%nat |}.

(** The key is held down all the time. *)
Definition held_hw : Hardware :=
  {| hw_micros := fun n => 100 * Z.of_nat n; hw_low := fun _ _ => true |}.

(** The event bytes among what a board has sent. *)
Definition events (b : Board) : list Z :=
  flat_map (fun o => match o with Write c => [c] | _ => [] end) (serial_out b).

(** What the next call of [micros] returns. *)
Definition clock (hw : Hardware) (b : Board) : Z :=
  wrap32 (hw_micros hw (observations b)).

(** Key [i] of the registry. *)
Definition key_at (i : nat) (b : Board) : option Key :=
  keys (static_state b) !! i.

(** Nothing but observations of the hardware separates two boards. *)
Definition only_observed (b b' : Board) : Prop :=
  static_state b' = static_state b
  /\ serial_out b' = serial_out b
  /\ (observations b <= observations b')%nat.

(** The board after the first scan of the example session has reported the
    key as pressed. The two clocks agree up to here. *)
Definition pressed_board : Board := polls press_release_hw 1 streaming_board.


(* ===================================================================== *)
(** ** The host's side of the event stream *)
(* ===================================================================== *)

(** What the host learns from one event byte [siii_iiii]: key [iii_iiii]
    is down when [s] is set. *)
Definition apply_event (view : Z -> bool) (c : Z) : Z -> bool :=
  fun i => if i =? c mod 128 then 128 <=? c else view i.

(** The host's view of the keys after a sequence of event bytes. *)
Definition host_view (evs : list Z) (view : Z -> bool) : Z -> bool :=
  fold_left apply_event evs view.

(** The event bytes among a sequence of [Serial] calls. *)
Definition event_bytes (out : list Out) : list Z :=
  flat_map (fun o => match o with Write c => [c] | _ => [] end) out.

(** The reported state of every key below [n] is the one [view] gives. *)
Definition reported (n : nat) (view : Z -> bool) (b : Board) : Prop :=
  forall (j : nat) (key : Key),
    (j < n)%nat -> key_at j b = Some key -> was_down key = view (Z.of_nat j).

(** A clock that wraps around shortly after the first scan; the key is
    down for the first five observations. *)
Definition wrapping_hw : Hardware :=
  {| hw_micros := fun n => 4294966800 + 100 * Z.of_nat n;
     hw_low := fun n _ => (n <? 5)%nat |}.

(** The board an outcome ends with. *)
Definition final_board {A} (o : Outcome A) : Board :=
  match o with
  | Ok _ b | Blocked b | Spinning b => b
  end.

(** A computation that may wait relates every board to the board it ends
    with, whether it returns, blocks or is still running. *)
Definition keepsM (R : Board -> Board -> Prop) {A} (m : M A) : Prop :=
  forall b, R b (final_board (m b)).

(** The registry is inside its array: [keys] has [MAX_KEYS] slots and
    [key_count] of them are in use. *)
Definition registry_ok (s : State) : Prop :=
  length (keys s) = Z.to_nat MAX_KEYS /\ 0 <= key_count s <= MAX_KEYS.

(** A step that keeps the registry inside its array. *)
Definition keeps_registry (b b' : Board) : Prop :=
  registry_ok (static_state b) -> registry_ok (static_state b').

(** A session in which the host registers [MAX_KEYS] keys, all on pin 5,
    and the board when its command loop has ended. *)
Definition full_session : list byte :=
  (MAGIC_NUMBER
   ++ flat_map (fun _ => [xad; x00; x01; x05]) (seq 0 128)
   ++ [x0f; x00; x00])%byte.

Definition full_board : Board :=
  final_board (State_run_setup 200 (power_up full_session)).

(** The commands that register the keys of [pins], one ADD_KEY each. *)
Definition add_key_commands (pins : list byte) : list byte :=
  flat_map (fun p => [xad; x00; x01; p]) pins.

(** The pins of the first [n] keys, each at its first occurrence. *)
Fixpoint opened_pins (n : nat) (ks : list Key) : list Z :=
  match n with
  | O => []
  | S m =>
    opened_pins m ks
    ++ match ks !! m with
       | Some k =>
         if existsb (fun k' => pin k' =? pin k) (take m ks) then []
         else [pin k]
       | None => []
       end
  end.

(** The calls that set up one pin. *)
Definition open_calls (interrupts : bool) (p : Z) : list PinOp :=
  PinModeInputPullup p :: (if interrupts then [AttachInterrupt p] else []).

(** The calls that release the pin of one key. *)
Definition release_calls (k : Key) : list PinOp :=
  [PinModeInput (pin k); DetachInterrupt (pin k)].

(** The registered keys are on the same pins. *)
Definition same_pins (b b' : Board) : Prop :=
  pin <$> keys (static_state b') = pin <$> keys (static_state b)
  /\ key_count (static_state b') = key_count (static_state b).

(** A session that registers keys on pins 5, 6 and 5 again and asks for
    interrupts, and the board when its command loop has ended. *)
Definition shared_pin_session : list byte :=
  (MAGIC_NUMBER ++ add_key_commands ["005"; "006"; "005"]
   ++ [xea; x00; x01; x01] ++ [x0f; x00; x00])%byte.

Definition shared_pin_board : Board :=
  final_board (State_run_setup 20 (power_up shared_pin_session)).

(** What handshake and configuration leave alone: the pins, the clock,
    the gate of the scan, the run counter and the event stream. *)
Definition setup_frame (b b' : Board) : Prop :=
  pin_ops b' = pin_ops b
  /\ observations b' = observations b
  /\ min_tick_time b' = min_tick_time b
  /\ static_runs b' = static_runs b
  /\ events b' = events b.

(** What is left in the receive buffer is the end of what was in it. *)
Definition reads (b b' : Board) : Prop :=
  exists pre, serial_in b = pre ++ serial_in b'.

(** The key goes down at the third observation and stays down; the clock
    advances by 10 microseconds per observation and jumps ahead by 1000
    microseconds after the fourth. *)
Definition gated_hw : Hardware :=
  {| hw_micros := fun n => if (n <? 4)%nat then 10 * Z.of_nat n
                           else 1000 + 10 * Z.of_nat n;
     hw_low := fun n _ => (3 <=? n)%nat |}.

(** The board after one scan of the example session on that hardware: the
    scan found the key up and set [min_tick_time] to instant 70. *)
Definition gated_board : Board := polls gated_hw 1 streaming_board.

(** A computation that neither reads nor writes the receive buffer: run
    with another buffer it does the same and leaves that buffer in
    place. *)
Definition ignores_input {A} (m : St A) : Prop :=
  forall (l : list byte) (b : Board),
    m (Board.with_serial_in l b)
    = (fst (m b), Board.with_serial_in l (snd (m b))).

(* ===================================================================== *)
(** ** Machine integers: facts *)
(* ===================================================================== *)

Lemma wrap32_range z : 0 <= wrap32 z < 2 ^ 32.
Proof. unfold wrap32. apply Z.mod_pos_bound. lia. Qed.

Lemma wrap32_small z : 0 <= z < 2 ^ 32 -> wrap32 z = z.
Proof. intros H. unfold wrap32. apply Z.mod_small. exact H. Qed.

Lemma signed32_nonneg x :
  0 <= x < 2 ^ 32 -> (signed32 x >=? 0) = (x <? 2 ^ 31).
Proof.
  intros Hx. unfold signed32.
  destruct (x <? 2 ^ 31) eqn:E.
  - apply Z.ltb_lt in E. apply Z.geb_le. lia.
  - apply Z.ltb_ge in E.
    destruct (x - 2 ^ 32 >=? 0) eqn:G; [|reflexivity].
    apply Z.geb_le in G. lia.
Qed.

Lemma byte_Z_range c : 0 <= byte_Z c < 256.
Proof.
  unfold byte_Z. pose proof (Byte.to_N_bounded c) as H. lia.
Qed.

(* ===================================================================== *)
(** ** The debounce timer *)
(* ===================================================================== *)

Lemma Timer_check_disabled now t :
  enabled t = false -> Timer.check now t = (false, t).
Proof. intros H. unfold Timer.check. rewrite H. reflexivity. Qed.

Lemma Timer_check_enabled now t :
  enabled t = true ->
  fst (Timer.check now t) = (wrap32 (now - timeout t) <? 2 ^ 31).
Proof.
  intros H. unfold Timer.check. cbn [fst]. rewrite H. cbn [andb].
  apply signed32_nonneg, wrap32_range.
Qed.

Lemma Timer_check_true now t :
  fst (Timer.check now t) = true ->
  enabled (snd (Timer.check now t)) = false.
Proof.
  unfold Timer.check. cbn [fst snd]. intros ->. reflexivity.
Qed.

Lemma check_each_disabled nows t :
  enabled t = false ->
  check_each nows t = (map (fun _ => false) nows, t).
Proof.
  intros H. induction nows as [|now rest IH]; cbn [check_each map].
  - reflexivity.
  - rewrite (Timer_check_disabled now t H). cbn [fst snd].
    rewrite IH. reflexivity.
Qed.

(** C3. Wraparound-safe expiry: for an armed timer, [check now] answers true
    exactly when the distance from the deadline forward to [now], taken
    modulo [2^32], is below [2^31]; a disarmed timer always answers false.
    This holds for all integers, so in particular for every [now] and
    deadline of the 32-bit range. *)
Theorem Timer_check_forward_distance (now deadline : Z) :
  (fst (Timer.check now {| timeout := deadline; enabled := true |}) = true
   <-> (now - deadline) mod 2 ^ 32 < 2 ^ 31)
  /\ fst (Timer.check now {| timeout := deadline; enabled := false |}) = false.
Proof.
  split.
  - rewrite Timer_check_enabled by reflexivity.
    cbn [timeout]. unfold wrap32. apply Z.ltb_lt.
  - reflexivity.
Qed.

(** C8. The timer is one-shot: once [check] has answered true, every later
    [check], at whatever instant, answers false and leaves the timer as it
    is, until [set] is called; [set] arms the timer whatever its state, and
    an armed timer fires again. *)
Theorem Timer_one_shot (now : Z) (t : Timer) :
  fst (Timer.check now t) = true ->
  (forall nows : list Z,
      Forall (fun r => r = false)
             (fst (check_each nows (snd (Timer.check now t))))
      /\ snd (check_each nows (snd (Timer.check now t)))
         = snd (Timer.check now t))
  /\ (forall (deadline : Z) (t' : Timer),
         Timer.set deadline t' = {| timeout := deadline; enabled := true |}
         /\ fst (Timer.check deadline (Timer.set deadline t')) = true).
Proof.
  intros Hfired. split.
  - intros nows.
    rewrite check_each_disabled by (apply Timer_check_true; exact Hfired).
    cbn [fst snd]. split; [|reflexivity].
    induction nows; cbn [map]; constructor; auto.
  - intros deadline t'. split; [reflexivity|].
    rewrite Timer_check_enabled by reflexivity.
    cbn [Timer.set timeout]. rewrite Z.sub_diag. reflexivity.
Qed.

Lemma Timer_one_shot_witness :
  fst (Timer.check 5 {| timeout := 4294967290; enabled := true |}) = true
  /\ (forall nows : list Z,
         Forall (fun r => r = false)
           (fst (check_each nows
              (snd (Timer.check 5 {| timeout := 4294967290; enabled := true |}))))
         /\ snd (check_each nows
              (snd (Timer.check 5 {| timeout := 4294967290; enabled := true |})))
            = snd (Timer.check 5 {| timeout := 4294967290; enabled := true |}))
  /\ (forall (deadline : Z) (t' : Timer),
         Timer.set deadline t' = {| timeout := deadline; enabled := true |}
         /\ fst (Timer.check deadline (Timer.set deadline t')) = true).
Proof.
  split; [reflexivity|].
  apply (Timer_one_shot 5 {| timeout := 4294967290; enabled := true |}).
  reflexivity.
Defined.

(* ===================================================================== *)
(** ** The setup protocol *)
(* ===================================================================== *)

Lemma emit_all_fields log b :
  static_state (emit_all log b) = static_state b
  /\ static_runs (emit_all log b) = static_runs b
  /\ min_tick_time (emit_all log b) = min_tick_time b
  /\ observations (emit_all log b) = observations b
  /\ serial_in (emit_all log b) = serial_in b
  /\ serial_out (emit_all log b) = serial_out b ++ log
  /\ pin_ops (emit_all log b) = pin_ops b.
Proof.
  unfold emit_all. revert b.
  induction log as [|o log IH]; intros b; cbn [fold_left].
  - rewrite app_nil_r. repeat split.
  - destruct (IH (Board.emit o b)) as (H1 & H2 & H3 & H4 & H5 & H6 & H7).
    rewrite H1, H2, H3, H4, H5, H6, H7. cbn.
    rewrite <- app_assoc. repeat split.
Qed.

Lemma next_serial_byte_cons c rest b :
  serial_in b = c :: rest ->
  next_serial_byte b = Ok (byte_Z c) (Board.with_serial_in rest b).
Proof. intros H. unfold next_serial_byte. rewrite H. reflexivity. Qed.

Lemma read_excess_app payload rest b :
  serial_in b = payload ++ rest ->
  read_excess (length payload) b = Ok tt (Board.with_serial_in rest b).
Proof.
  revert b. induction payload as [|c payload IH]; intros b H.
  - destruct b. cbn in H. subst. reflexivity.
  - cbn [length read_excess]. unfold mbind, M_bind.
    rewrite (next_serial_byte_cons c (payload ++ rest)) by exact H.
    apply (IH (Board.with_serial_in (payload ++ rest) b)). reflexivity.
Qed.

Lemma State_run_command_header cmd hi lo tl b :
  serial_in b = cmd :: hi :: lo :: tl ->
  State_run_command b
  = (r ← State_run_switch (byte_Z cmd) (declared_length hi lo);
     match r with
     | None => mret None
     | Some (process_commands, payload_len') =>
       read_excess (Z.to_nat payload_len');;
       mret (Some process_commands)
     end) (Board.with_serial_in tl b).
Proof.
  intros H. unfold State_run_command.
  unfold mbind at 1, M_bind at 1.
  rewrite (next_serial_byte_cons cmd (hi :: lo :: tl)) by exact H.
  unfold mbind at 1, M_bind at 1.
  rewrite (next_serial_byte_cons hi (lo :: tl)) by reflexivity.
  unfold mbind at 1, M_bind at 1.
  rewrite (next_serial_byte_cons lo tl) by reflexivity.
  reflexivity.
Qed.

Ltac short_payload H :=
  match type of H with
  | context [?len <? ?n] =>
    destruct (len <? n); [reflexivity | cbn in H; discriminate H]
  end.

Lemma State_run_switch_rejected cmd len b :
  rejected cmd len = true ->
  State_run_switch cmd len b
  = Ok (Some (true, len)) (emit_all (rejection_log cmd) b).
Proof.
  unfold rejected, known_command, rejection_log, State_run_switch.
  intros H.
  destruct (cmd =? SETUPCMD_FINISH) eqn:E1.
  { apply Z.eqb_eq in E1. subst cmd. discriminate H. }
  destruct (cmd =? SETUPCMD_ADD_KEY) eqn:E2.
  { apply Z.eqb_eq in E2. subst cmd. short_payload H. }
  destruct (cmd =? SETUPCMD_SET_DEBOUNCE) eqn:E3.
  { apply Z.eqb_eq in E3. subst cmd. short_payload H. }
  destruct (cmd =? SETUPCMD_AWAIT_SMOOTHNESS) eqn:E4.
  { apply Z.eqb_eq in E4. subst cmd. short_payload H. }
  destruct (cmd =? CMD_RESET) eqn:E5.
  { apply Z.eqb_eq in E5. subst cmd. discriminate H. }
  destruct (cmd =? SETUPCMD_ENABLE_INTERRUPTS) eqn:E6.
  { apply Z.eqb_eq in E6. subst cmd. short_payload H. }
  reflexivity.
Qed.

(** C6. A command that is declared shorter than the payload it reads, or
    whose command byte is unknown, is logged and skipped: the state (the
    settings and the key registry) is as before, exactly the declared
    number of payload bytes is read after the three header bytes, and the
    command loop goes on with the byte that follows them. *)
Theorem rejected_command_is_skipped
    (b : Board) (cmd hi lo : byte) (payload rest : list byte) :
  serial_in b = cmd :: hi :: lo :: payload ++ rest ->
  Z.of_nat (length payload) = declared_length hi lo ->
  rejected (byte_Z cmd) (declared_length hi lo) = true ->
  exists b',
    State_run_command b = Ok (Some true) b'
    /\ static_state b' = static_state b
    /\ serial_in b' = rest
    /\ serial_out b' = serial_out b ++ rejection_log (byte_Z cmd)
    /\ rejection_log (byte_Z cmd) <> []
    /\ pin_ops b' = pin_ops b
    /\ (forall fuel,
           State_run_commands (S fuel) b = State_run_commands fuel b').
Proof.
  intros Hin Hlen Hrej.
  set (b1 := emit_all (rejection_log (byte_Z cmd))
                      (Board.with_serial_in (payload ++ rest) b)).
  assert (Hcmd : State_run_command b
                 = Ok (Some true) (Board.with_serial_in rest b1)).
  { rewrite (State_run_command_header cmd hi lo (payload ++ rest)) by exact Hin.
    unfold mbind at 1, M_bind at 1.
    rewrite State_run_switch_rejected by exact Hrej.
    fold b1. rewrite <- Hlen, Nat2Z.id.
    unfold mbind, M_bind.
    rewrite (read_excess_app payload rest b1); [reflexivity|].
    unfold b1.
    destruct (emit_all_fields (rejection_log (byte_Z cmd))
                (Board.with_serial_in (payload ++ rest) b))
      as (_ & _ & _ & _ & H5 & _).
    rewrite H5. reflexivity. }
  destruct (emit_all_fields (rejection_log (byte_Z cmd))
              (Board.with_serial_in (payload ++ rest) b))
    as (H1 & _ & _ & _ & _ & H6 & H7).
  exists (Board.with_serial_in rest b1). repeat split.
  - exact Hcmd.
  - cbn. fold b1 in H1. rewrite H1. reflexivity.
  - cbn. fold b1 in H6. rewrite H6. reflexivity.
  - unfold rejection_log.
    repeat match goal with |- context [if ?c then _ else _] => destruct c end;
      discriminate.
  - cbn. fold b1 in H7. rewrite H7. reflexivity.
  - intros fuel. cbn [State_run_commands]. unfold mbind, M_bind.
    rewrite Hcmd. reflexivity.
Qed.

Lemma rejected_command_is_skipped_witness :
  serial_in (power_up [x42; x00; x02; "a"; "b"; x0f; x00; x00]%byte)
  = x42 :: x00 :: x02 :: ["a"; "b"]%byte ++ [x0f; x00; x00]
  /\ Z.of_nat (length ["a"; "b"]%byte) = declared_length x00 x02
  /\ rejected (byte_Z x42) (declared_length x00 x02) = true
  /\ exists b',
      State_run_command
        (power_up [x42; x00; x02; "a"; "b"; x0f; x00; x00]%byte)
      = Ok (Some true) b'
      /\ static_state b'
         = static_state
             (power_up [x42; x00; x02; "a"; "b"; x0f; x00; x00]%byte)
      /\ serial_in b' = [x0f; x00; x00]
      /\ serial_out b'
         = serial_out
             (power_up [x42; x00; x02; "a"; "b"; x0f; x00; x00]%byte)
           ++ rejection_log (byte_Z x42)
      /\ rejection_log (byte_Z x42) <> []
      /\ pin_ops b'
         = pin_ops (power_up [x42; x00; x02; "a"; "b"; x0f; x00; x00]%byte)
      /\ (forall fuel,
             State_run_commands (S fuel)
               (power_up [x42; x00; x02; "a"; "b"; x0f; x00; x00]%byte)
             = State_run_commands fuel b').
Proof.
  split; [reflexivity|]. split; [reflexivity|]. split; [reflexivity|].
  apply (rejected_command_is_skipped
           (power_up [x42; x00; x02; "a"; "b"; x0f; x00; x00]%byte)
           x42 x00 x02 ["a"; "b"]%byte [x0f; x00; x00]);
    reflexivity.
Defined.

(* ===================================================================== *)
(** ** What the loops over the keys leave alone *)
(* ===================================================================== *)

Section Keeps.

Context (R : relation Board) `{!PreOrder R}.

Lemma keeps_ret {A} (a : A) : keeps R (mret a).
Proof. intros b. reflexivity. Qed.

Lemma keeps_bind {A B} (m : St A) (f : A -> St B) :
  keeps R m -> (forall a, keeps R (f a)) -> keeps R (m ≫= f).
Proof.
  intros Hm Hf b. unfold mbind, St_bind.
  specialize (Hm b). destruct (m b) as [a b1]. cbn [snd] in Hm.
  etransitivity; [exact Hm | apply Hf].
Qed.

Lemma keeps_get_state : keeps R get_state.
Proof. intros b. reflexivity. Qed.

Lemma keeps_get_min_tick_time : keeps R get_min_tick_time.
Proof. intros b. reflexivity. Qed.

Lemma keeps_for_loop n i body :
  (forall j, keeps R (body j)) -> keeps R (for_loop n i body).
Proof.
  intros Hbody. revert i.
  induction n as [|n IH]; intros i; cbn [for_loop].
  - apply keeps_ret.
  - apply keeps_bind; [apply Hbody | intros _; apply IH].
Qed.

End Keeps.

#[export] Instance scan_frame_preorder : PreOrder scan_frame.
Proof.
  split.
  - intros b. constructor; try reflexivity.
    exists []. rewrite app_nil_r. reflexivity.
  - intros b1 b2 b3
      [A1 A2 A3 A4 A5 A6 A7 A8 [e1 A9]] [B1 B2 B3 B4 B5 B6 B7 B8 [e2 B9]].
    constructor; try congruence.
    + lia.
    + exists (e1 ++ e2). rewrite B9, A9, app_assoc. reflexivity.
Qed.

#[export] Instance same_input_preorder : PreOrder same_input.
Proof.
  split.
  - intros b. reflexivity.
  - intros b1 b2 b3 H1 H2. unfold same_input in *. congruence.
Qed.

Ltac frame_fields :=
  constructor; cbn; try reflexivity; try lia;
  try (exists []; rewrite app_nil_r; reflexivity).

Lemma frame_micros hw : keeps scan_frame (micros hw).
Proof. intros b. frame_fields. Qed.

Lemma frame_digitalRead hw p : keeps scan_frame (digitalRead_is_LOW hw p).
Proof. intros b. frame_fields. Qed.

Lemma frame_put_min_tick_time t : keeps scan_frame (put_min_tick_time t).
Proof. intros b. frame_fields. Qed.

Lemma frame_modify_key i f : keeps scan_frame (modify_key i f).
Proof. intros b. frame_fields. Qed.

Lemma frame_serial o : keeps scan_frame (serial o).
Proof. intros b. frame_fields. exists [o]. reflexivity. Qed.

Lemma input_pin_call o : keeps same_input (pin_call o).
Proof. intros b. reflexivity. Qed.

Create HintDb frame.
#[export] Hint Resolve frame_micros frame_digitalRead frame_put_min_tick_time
  frame_modify_key frame_serial input_pin_call : frame.
#[export] Hint Extern 1 (keeps _ get_state) =>
  apply keeps_get_state; typeclasses eauto : frame.
#[export] Hint Extern 1 (keeps _ get_min_tick_time) =>
  apply keeps_get_min_tick_time; typeclasses eauto : frame.

(** Takes a computation apart along its binds and branches. *)
Ltac keeps_tac :=
  repeat (intros;
          match goal with
          | |- keeps _ (mret _) => apply keeps_ret; typeclasses eauto
          | |- keeps _ (mbind _ _) => apply keeps_bind; [typeclasses eauto| |]
          | |- keeps _ (for_loop _ _ _) =>
            apply keeps_for_loop; [typeclasses eauto|]
          | |- keeps _ (if ?c then _ else _) => destruct c
          | |- keeps _ (match ?x with Some _ => _ | None => _ end) =>
            destruct x
          | |- keeps _ _ => solve [auto with frame]
          end).

Lemma Key_tick_key_frame hw i : keeps scan_frame (Key_tick_key hw i).
Proof. unfold Key_tick_key, check_now. keeps_tac. Qed.

Lemma Key_tick_frame hw : keeps scan_frame (Key_tick hw).
Proof. unfold Key_tick. keeps_tac. apply Key_tick_key_frame. Qed.

Lemma State_run_cleanup_input : keeps same_input State_run_cleanup.
Proof. unfold State_run_cleanup, State_run_cleanup_pin. keeps_tac. Qed.

(* ===================================================================== *)
(** ** The input loop *)
(* ===================================================================== *)

Lemma byte_Z_reset c : byte_Z c = CMD_RESET <-> c = xee.
Proof.
  split.
  - destruct c; intros H; try discriminate H; reflexivity.
  - intros ->. reflexivity.
Qed.

Lemma State_run_poll_eq hw b :
  State_run_poll hw b
  = match serial_in b with
    | [] => (false, snd (Key_tick hw b))
    | c :: rest =>
      (byte_Z c =? CMD_RESET, Board.with_serial_in rest (snd (Key_tick hw b)))
    end.
Proof.
  unfold State_run_poll, mbind, St_bind.
  pose proof (sf_serial_in _ _ (Key_tick_frame hw b)) as Hin.
  destruct (Key_tick hw b) as [[] b1]. cbn [snd] in *.
  unfold Serial_read. rewrite Hin.
  destruct (serial_in b); reflexivity.
Qed.

(** The key scan has nothing to do with the receive buffer. *)
Lemma ignores_ret {A} (a : A) : ignores_input (mret a).
Proof. intros l b. reflexivity. Qed.

Lemma ignores_bind {A B} (m : St A) (f : A -> St B) :
  ignores_input m -> (forall a, ignores_input (f a)) ->
  ignores_input (m ≫= f).
Proof.
  intros Hm Hf l b. unfold mbind, St_bind.
  rewrite Hm. destruct (m b) as [a b1]. cbn [fst snd]. apply Hf.
Qed.

Lemma ignores_micros hw : ignores_input (micros hw).
Proof. intros l b. reflexivity. Qed.

Lemma ignores_digitalRead hw p : ignores_input (digitalRead_is_LOW hw p).
Proof. intros l b. reflexivity. Qed.

Lemma ignores_get_state : ignores_input get_state.
Proof. intros l b. reflexivity. Qed.

Lemma ignores_get_min_tick_time : ignores_input get_min_tick_time.
Proof. intros l b. reflexivity. Qed.

Lemma ignores_put_min_tick_time t : ignores_input (put_min_tick_time t).
Proof. intros l b. reflexivity. Qed.

Lemma ignores_modify_key i f : ignores_input (modify_key i f).
Proof. intros l b. reflexivity. Qed.

Lemma ignores_serial o : ignores_input (serial o).
Proof. intros l b. reflexivity. Qed.

#[export] Hint Resolve ignores_micros ignores_digitalRead ignores_get_state
  ignores_get_min_tick_time ignores_put_min_tick_time ignores_modify_key
  ignores_serial : frame.

Ltac ignores_tac :=
  repeat (intros;
          match goal with
          | |- ignores_input (mret _) => apply ignores_ret
          | |- ignores_input (mbind _ _) => apply ignores_bind
          | |- ignores_input (if ?c then _ else _) => destruct c
          | |- ignores_input (match ?x with Some _ => _ | None => _ end) =>
            destruct x
          | |- ignores_input _ => solve [auto with frame]
          end).

Lemma ignores_for_loop n i body :
  (forall j, ignores_input (body j)) -> ignores_input (for_loop n i body).
Proof.
  intros Hbody. revert i.
  induction n as [|n IH]; intros i; cbn [for_loop]; ignores_tac.
Qed.

Lemma Key_tick_ignores_input hw : ignores_input (Key_tick hw).
Proof.
  unfold Key_tick. ignores_tac.
  apply ignores_for_loop. intros j.
  unfold Key_tick_key, check_now. ignores_tac.
Qed.

Lemma State_run_input_step hw fuel b :
  State_run_input hw (S fuel) b
  = if fst (State_run_poll hw b) then Ok tt (snd (State_run_poll hw b))
    else State_run_input hw fuel (snd (State_run_poll hw b)).
Proof.
  cbn [State_run_input]. unfold mbind, M_bind, lift.
  destruct (State_run_poll hw b) as [[|] b1]; reflexivity.
Qed.

(** The input loop returns right after the first byte [0xEE]. *)
Lemma State_run_input_exit hw fuel :
  forall b b',
    State_run_input hw fuel b = Ok tt b' ->
    exists pre, serial_in b = pre ++ xee :: serial_in b' /\ ~ In xee pre.
Proof.
  induction fuel as [|fuel IH]; intros b b'; [discriminate|].
  rewrite State_run_input_step, State_run_poll_eq.
  pose proof (sf_serial_in _ _ (Key_tick_frame hw b)) as Hscan.
  destruct (serial_in b) as [|c rest] eqn:Hin; cbn [fst snd].
  - intros Hrun. destruct (IH _ b' Hrun) as (pre & H & Hpre).
    rewrite Hscan in H. destruct pre; discriminate H.
  - destruct (byte_Z c =? CMD_RESET) eqn:Hc.
    + apply Z.eqb_eq, byte_Z_reset in Hc. subst c.
      intros [= <-]. exists []. split; [reflexivity | intros []].
    + intros Hrun. destruct (IH _ b' Hrun) as (pre & H & Hpre).
      cbn [serial_in Board.with_serial_in] in H.
      exists (c :: pre). rewrite H. split; [reflexivity|].
      intros [Heq | Hin']; [|contradiction].
      subst c. discriminate Hc.
Qed.

(** With a byte [0xEE] in the receive buffer the input loop returns, given
    one iteration per byte up to it. *)
Lemma State_run_input_exits hw (pre : list byte) :
  forall (rest : list byte) (fuel : nat) (b : Board),
    ~ In xee pre ->
    serial_in b = pre ++ xee :: rest ->
    exists b',
      State_run_input hw (S (length pre) + fuel) b = Ok tt b'
      /\ serial_in b' = rest.
Proof.
  induction pre as [|c pre IH]; intros rest fuel b Hpre Hin;
    cbn [length Nat.add app] in *;
    rewrite State_run_input_step, State_run_poll_eq, Hin; cbn [fst snd].
  - change (byte_Z xee =? CMD_RESET) with true. cbn match.
    eexists. split; reflexivity.
  - destruct (byte_Z c =? CMD_RESET) eqn:Hc.
    + apply Z.eqb_eq, byte_Z_reset in Hc. subst c.
      exfalso. apply Hpre. left. reflexivity.
    + apply IH; [|reflexivity].
      intros Hin'. apply Hpre. right. exact Hin'.
Qed.

Lemma State_run_input_never_blocks hw fuel :
  forall b b', State_run_input hw fuel b <> Blocked b'.
Proof.
  induction fuel as [|fuel IH]; intros b b'; [discriminate|].
  rewrite State_run_input_step.
  destruct (fst (State_run_poll hw b)); [discriminate | apply IH].
Qed.

(** C10. The input loop and the receive buffer. One iteration of the loop
    is a key scan followed by one [Serial.read()]: it reads at most one
    byte, and whatever the byte is, the board is the one the key scan
    produced, less that byte. A byte other than [0xEE] changes nothing:
    the iteration ends as it does with an empty buffer, except that the
    byte is gone. The loop goes on after every iteration that did not read
    [0xEE], never waits for a byte, returns only right after the first
    [0xEE] in the buffer, and does return when there is one. *)
Theorem State_run_input_reads_one_byte_per_poll (hw : Hardware) (b : Board) :
  match serial_in b with
  | [] => State_run_poll hw b = (false, snd (Key_tick hw b))
  | c :: rest =>
    State_run_poll hw b
    = (byte_Z c =? CMD_RESET, Board.with_serial_in rest (snd (Key_tick hw b)))
  end
  /\ static_state (snd (State_run_poll hw b))
     = static_state (snd (Key_tick hw b))
  /\ min_tick_time (snd (State_run_poll hw b))
     = min_tick_time (snd (Key_tick hw b))
  /\ serial_out (snd (State_run_poll hw b))
     = serial_out (snd (Key_tick hw b))
  /\ (length (serial_in b) <= S (length (serial_in (snd (State_run_poll hw b)))))%nat
  /\ (fst (State_run_poll hw b) = true
      <-> exists rest, serial_in b = xee :: rest)
  /\ (forall (c : byte) (rest : list byte),
         byte_Z c <> CMD_RESET ->
         State_run_poll hw (Board.with_serial_in (c :: rest) b)
         = (false,
            Board.with_serial_in rest
              (snd (State_run_poll hw (Board.with_serial_in [] b)))))
  /\ (forall fuel : nat,
         State_run_input hw (S fuel) b
         = if fst (State_run_poll hw b)
           then Ok tt (snd (State_run_poll hw b))
           else State_run_input hw fuel (snd (State_run_poll hw b)))
  /\ (forall (fuel : nat) (b' : Board),
         State_run_input hw fuel b = Ok tt b' ->
         exists pre,
           serial_in b = pre ++ xee :: serial_in b' /\ ~ In xee pre)
  /\ (forall (fuel : nat) (pre rest : list byte),
         ~ In xee pre ->
         serial_in b = pre ++ xee :: rest ->
         exists b',
           State_run_input hw (S (length pre) + fuel) b = Ok tt b'
           /\ serial_in b' = rest)
  /\ (forall (fuel : nat) (b' : Board),
         State_run_input hw fuel b <> Blocked b').
Proof.
  assert (Hpoll :
    match serial_in b with
    | [] => State_run_poll hw b = (false, snd (Key_tick hw b))
    | c :: rest =>
      State_run_poll hw b
      = (byte_Z c =? CMD_RESET,
         Board.with_serial_in rest (snd (Key_tick hw b)))
    end
    /\ static_state (snd (State_run_poll hw b))
       = static_state (snd (Key_tick hw b))
    /\ min_tick_time (snd (State_run_poll hw b))
       = min_tick_time (snd (Key_tick hw b))
    /\ serial_out (snd (State_run_poll hw b))
       = serial_out (snd (Key_tick hw b))
    /\ (length (serial_in b)
        <= S (length (serial_in (snd (State_run_poll hw b)))))%nat
    /\ (fst (State_run_poll hw b) = true
        <-> exists rest, serial_in b = xee :: rest)).
  { rewrite State_run_poll_eq.
    destruct (serial_in b) as [|c rest]; cbn [fst snd].
    - repeat split; try reflexivity; try (cbn; lia); try discriminate.
      intros [rest H]. discriminate H.
    - repeat split; try reflexivity; try (cbn; lia).
      + intros H. apply Z.eqb_eq, byte_Z_reset in H. subst c.
        exists rest. reflexivity.
      + intros [rest' H]. injection H as -> _. reflexivity. }
  destruct Hpoll as (H1 & H2 & H3 & H4 & H5 & H6).
  split; [exact H1|]. split; [exact H2|]. split; [exact H3|].
  split; [exact H4|]. split; [exact H5|]. split; [exact H6|].
  split.
  { intros c rest Hc. rewrite !State_run_poll_eq.
    cbn [serial_in Board.with_serial_in fst snd].
    apply Z.eqb_neq in Hc. rewrite Hc.
    rewrite !(Key_tick_ignores_input hw). reflexivity. }
  split; [intros fuel; apply State_run_input_step|].
  split; [intros fuel b'; apply State_run_input_exit|].
  split; [intros fuel pre rest; apply State_run_input_exits|].
  intros fuel b'. apply State_run_input_never_blocks.
Qed.

Lemma State_run_input_reads_one_byte_per_poll_witness :
  byte_Z "a" <> CMD_RESET
  /\ ~ In xee ["a"%byte]
  /\ serial_in (Board.with_serial_in ["a"; xee; "z"]%byte streaming_board)
     = ["a"%byte] ++ xee :: ["z"%byte]
  /\ State_run_poll held_hw
       (Board.with_serial_in ("a" :: [xee; "z"])%byte
          (Board.with_serial_in ["a"; xee; "z"]%byte streaming_board))
     = (false,
        Board.with_serial_in [xee; "z"]%byte
          (snd (State_run_poll held_hw
                  (Board.with_serial_in []
                     (Board.with_serial_in ["a"; xee; "z"]%byte
                        streaming_board)))))
  /\ exists b',
      State_run_input held_hw (S (length ["a"%byte]) + 0)
        (Board.with_serial_in ["a"; xee; "z"]%byte streaming_board)
      = Ok tt b'
      /\ serial_in b' = ["z"%byte].
Proof.
  assert (Ha : byte_Z "a" <> CMD_RESET) by discriminate.
  assert (Hpre : ~ In xee ["a"%byte]).
  { intros [H | []]. discriminate H. }
  destruct (State_run_input_reads_one_byte_per_poll held_hw
              (Board.with_serial_in ["a"; xee; "z"]%byte streaming_board))
    as (_ & _ & _ & _ & _ & _ & Hskip & _ & _ & Hexit & _).
  split; [exact Ha|]. split; [exact Hpre|]. split; [reflexivity|].
  split.
  - exact (Hskip "a"%byte [xee; "z"]%byte Ha).
  - exact (Hexit 0%nat ["a"%byte] ["z"%byte] Hpre eq_refl).
Defined.



(* ===================================================================== *)
(** ** Sessions *)
(* ===================================================================== *)



(** A RESET command ends the command loop as soon as its header has been
    read: the bytes after the header, declared payload included, stay in
    the receive buffer. *)
Lemma State_run_commands_reset
    (b : Board) (hi lo : byte) (rest : list byte) (fuel : nat) :
  State_run_commands (S fuel)
    (Board.with_serial_in (xee :: hi :: lo :: rest) b)
  = Ok false
       (Board.emit (Println "reset requested") (Board.with_serial_in rest b)).
Proof.
  cbn [State_run_commands]. unfold mbind at 1, M_bind at 1.
  rewrite (State_run_command_header xee hi lo rest) by reflexivity.
  reflexivity.
Qed.

(** C7 (as amended). A RESET command received while commands are handled
    makes the device leave the command loop after the three header bytes:
    no byte of a declared payload is read, the state is as before, and the
    cleanup that ends the session reads nothing either, so that the next
    session starts reading at the first byte after the header. *)
Theorem reset_command_leaves_payload_unread
    (b : Board) (hi lo : byte) (rest : list byte) (fuel : nat) :
  exists b',
    State_run_commands (S fuel)
      (Board.with_serial_in (xee :: hi :: lo :: rest) b)
    = Ok false b'
    /\ serial_in b' = rest
    /\ static_state b' = static_state b
    /\ serial_out b' = serial_out b ++ [Println "reset requested"]
    /\ serial_in (snd (State_run_cleanup b')) = rest.
Proof.
  eexists. split; [apply State_run_commands_reset|].
  repeat split.
  apply (State_run_cleanup_input
           (Board.emit (Println "reset requested")
                       (Board.with_serial_in rest b))).
Qed.

(** C7, the claim as stated fails: a session is reset by a RESET command
    that declares a payload of two bytes, ["A"] and ["B"]. When [State_run]
    returns these two bytes are still unread, and the next session counts
    them as garbage in front of its magic number. *)
Lemma reset_payload_counterexample :
  exists b1 b2,
    State_run idle_hw 20
      (power_up (MAGIC_NUMBER ++ [xee; x00; x02; "A"; "B"] ++ MAGIC_NUMBER)%byte)
    = Ok tt b1
    /\ serial_in b1 = (["A"; "B"] ++ MAGIC_NUMBER)%byte
    /\ serial_in b1 <> MAGIC_NUMBER
    /\ State_run idle_hw 20 b1 = Blocked b2
    /\ serial_in b2 = []
    /\ In (PrintNum 2) (serial_out b2).
Proof.
  eexists. eexists.
  split; [vm_compute; reflexivity|].
  split; [reflexivity|].
  split; [discriminate|].
  split; [vm_compute; reflexivity|].
  split; [reflexivity|].
  vm_compute. tauto.
Qed.

(* ===================================================================== *)
(** ** Reading the magic number *)
(* ===================================================================== *)

Lemma byte_Z_S c : byte_Z c = magic_at 0 -> c = "S"%byte.
Proof. destruct c; intros H; try discriminate H; reflexivity. Qed.

(** Garbage that holds no ["S"] is skipped byte by byte and counted. *)
Lemma State_run_resync_skips
    (garbage rest : list byte) (fuel : nat) (count : Z) (b : Board) :
  Forall (fun c => c <> "S"%byte) garbage ->
  State_run_resync (length garbage + (9 + fuel)) 0 count
    (Board.with_serial_in (garbage ++ MAGIC_NUMBER ++ rest) b)
  = Ok (count + Z.of_nat (length garbage)) (Board.with_serial_in rest b).
Proof.
  intros Hfree. revert count b.
  induction Hfree as [|c garbage Hc _ IH]; intros count b.
  - cbn [length app Nat.add Z.of_nat]. rewrite Z.add_0_r.
    destruct b. vm_compute. reflexivity.
  - cbn [length app Nat.add State_run_resync].
    change (0 <? 8) with true. cbn match.
    unfold mbind at 1, M_bind at 1.
    rewrite (next_serial_byte_cons c (garbage ++ MAGIC_NUMBER ++ rest))
      by reflexivity.
    destruct (byte_Z c =? magic_at 0) eqn:E.
    + apply Z.eqb_eq, byte_Z_S in E. contradiction.
    + cbn [negb].
      change (Board.with_serial_in (garbage ++ MAGIC_NUMBER ++ rest)
                (Board.with_serial_in (c :: garbage ++ MAGIC_NUMBER ++ rest) b))
        with (Board.with_serial_in (garbage ++ MAGIC_NUMBER ++ rest) b).
      rewrite IH. f_equal. lia.
Qed.

(** C4. One garbage byte ["S"] in front of the magic number: the device
    reads all nine bytes and is still waiting for the magic number, however
    many iterations its loop is given. It has not entered configuration,
    although the last eight bytes it read are the magic number. *)
Theorem resync_misses_magic_after_S (b : Board) (fuel : nat) :
  State_run_resync (10 + fuel) 0 0
    (Board.with_serial_in ("S"%byte :: MAGIC_NUMBER) b)
  = Blocked (Board.with_serial_in [] b)
  /\ forall (n : nat) (garbage : Z) (b' : Board),
       State_run_resync n 0 0
         (Board.with_serial_in ("S"%byte :: MAGIC_NUMBER) b)
       <> Ok garbage b'.
Proof.
  split.
  - destruct b. vm_compute. reflexivity.
  - intros n garbage b'. destruct b.
    do 10 (destruct n as [|n]; [vm_compute; discriminate|]).
    vm_compute. discriminate.
Qed.

(* ===================================================================== *)
(** ** The key scan *)
(* ===================================================================== *)

Lemma Key_tick_eq hw b :
  Key_tick hw b
  = if clock hw b <? min_tick_time b then (tt, Board.observe b)
    else
      let b1 :=
        snd (for_loop (Z.to_nat (key_count (static_state b))) 0
               (Key_tick_key hw) (Board.observe b)) in
      (tt, Board.with_min_tick_time (wrap32 (clock hw b1 + 50))
             (Board.observe b1)).
Proof.
  unfold Key_tick, clock, mbind, St_bind, micros, get_min_tick_time, get_state.
  cbn [min_tick_time Board.observe static_state].
  destruct (wrap32 (hw_micros hw (observations b)) <? min_tick_time b);
    [reflexivity|].
  destruct (for_loop _ _ _ _) as [[] b1]. reflexivity.
Qed.

(** A key whose raw state is the reported one is read and left alone. *)
Lemma Key_tick_key_idle hw i b key :
  keys (static_state b) !! Z.to_nat i = Some key ->
  was_down key = hw_low hw (observations b) (pin key) ->
  Key_tick_key hw i b = (tt, Board.observe b).
Proof.
  intros Hkey Hsame.
  unfold Key_tick_key, mbind, St_bind, get_state, digitalRead_is_LOW.
  rewrite Hkey, <- Hsame, eqb_reflx. reflexivity.
Qed.

(** The rule the scan follows for a key whose raw state differs from the
    reported one: the change is reported unless [check] answers true. *)
Lemma Key_tick_key_pending hw i b key :
  keys (static_state b) !! Z.to_nat i = Some key ->
  was_down key <> hw_low hw (observations b) (pin key) ->
  let is_down := hw_low hw (observations b) (pin key) in
  let expired :=
    fst (Timer.check (clock hw (Board.observe b)) (debounce_timer key)) in
  serial_out (snd (Key_tick_key hw i b))
  = serial_out b ++ (if expired then [] else [Write (event_byte i is_down)])
  /\ was_down <$> keys (static_state (snd (Key_tick_key hw i b))) !! Z.to_nat i
     = Some (if expired then was_down key else is_down).
Proof.
  intros Hkey Hdiff is_down expired.
  unfold Key_tick_key, mbind, St_bind, get_state, digitalRead_is_LOW.
  rewrite Hkey. fold is_down.
  destruct (Bool.eqb (was_down key) is_down) eqn:E.
  { apply eqb_prop in E. contradiction. }
  cbn [negb]. unfold check_now, mbind, St_bind, micros, mret, St_ret.
  fold (clock hw (Board.observe b)). fold expired.
  destruct expired; destruct (await_smoothness (static_state b)); cbn;
    rewrite ?app_nil_r; repeat rewrite list_lookup_alter_eq;
    rewrite Hkey; split; reflexivity.
Qed.

Lemma only_observed_refl b : only_observed b b.
Proof. unfold only_observed. auto. Qed.

Lemma only_observed_trans b1 b2 b3 :
  only_observed b1 b2 -> only_observed b2 b3 -> only_observed b1 b3.
Proof.
  intros (A1 & A2 & A3) (B1 & B2 & B3).
  repeat split; [congruence | congruence | lia].
Qed.

(** A scan of keys that are all up to date changes nothing. *)
Lemma for_loop_idle hw raw n :
  forall (i : nat) (b : Board),
    (forall m p, (observations b <= m)%nat -> hw_low hw m p = raw p) ->
    (forall j key, (i <= j < i + n)%nat ->
                   keys (static_state b) !! j = Some key ->
                   was_down key = raw (pin key)) ->
    only_observed b
      (snd (for_loop n (Z.of_nat i) (Key_tick_key hw) b)).
Proof.
  induction n as [|n IH]; intros i b Hraw Hkeys; cbn [for_loop].
  - apply only_observed_refl.
  - unfold mbind, St_bind.
    assert (Hstep : only_observed b (snd (Key_tick_key hw (Z.of_nat i) b))).
    { destruct (keys (static_state b) !! i) as [key|] eqn:Hkey.
      - rewrite (Key_tick_key_idle hw (Z.of_nat i) b key).
        + unfold only_observed. cbn. auto.
        + rewrite Nat2Z.id. exact Hkey.
        + rewrite (Hraw (observations b) (pin key)) by lia.
          apply (Hkeys i key); [lia | exact Hkey].
      - unfold Key_tick_key, mbind, St_bind, get_state.
        rewrite Nat2Z.id, Hkey. apply only_observed_refl. }
    destruct (Key_tick_key hw (Z.of_nat i) b) as [[] b1]. cbn [snd] in *.
    destruct Hstep as (S1 & S2 & S3).
    apply (only_observed_trans b b1); [unfold only_observed; auto|].
    replace (Z.of_nat i + 1) with (Z.of_nat (S i)) by lia.
    apply IH.
    + intros m p Hm. apply Hraw. lia.
    + intros j key Hj Hkey. rewrite S1 in Hkey.
      apply (Hkeys j key); [lia | exact Hkey].
Qed.

Lemma up_to_date_spec raw b :
  up_to_date raw b = true ->
  forall j key,
    (j < Z.to_nat (key_count (static_state b)))%nat ->
    keys (static_state b) !! j = Some key ->
    was_down key = raw (pin key).
Proof.
  unfold up_to_date. intros Hall j key Hj Hkey.
  rewrite forallb_forall in Hall.
  apply eqb_prop, Hall, list_elem_of_In.
  apply (list_elem_of_lookup_2 _ j).
  rewrite lookup_take_lt by exact Hj. exact Hkey.
Qed.

(** A scan that finds every key up to date sends nothing and leaves the
    registry as it is. *)
Lemma Key_tick_up_to_date hw raw b :
  (forall m p, (observations b <= m)%nat -> hw_low hw m p = raw p) ->
  up_to_date raw b = true ->
  serial_out (snd (Key_tick hw b)) = serial_out b
  /\ static_state (snd (Key_tick hw b)) = static_state b.
Proof.
  intros Hraw Hall. rewrite Key_tick_eq.
  destruct (clock hw b <? min_tick_time b); [split; reflexivity|].
  cbn [snd Board.with_min_tick_time Board.observe serial_out static_state].
  destruct (for_loop_idle hw raw (Z.to_nat (key_count (static_state b))) 0
              (Board.observe b)) as (Hstate & Hout & _).
  - intros m p Hm. apply Hraw. cbn in Hm. lia.
  - intros j key Hj Hkey. apply (up_to_date_spec raw b Hall j key); [lia|].
    exact Hkey.
  - split; assumption.
Qed.

Lemma polls_S hw k b : polls hw (S k) b = polls hw k (polls hw 1 b).
Proof. reflexivity. Qed.

(** Once every key is up to date and the pins keep their state, the input
    loop sends nothing more, however often it runs. *)
Lemma polls_up_to_date hw raw n :
  forall b,
    (forall m p, (observations b <= m)%nat -> hw_low hw m p = raw p) ->
    up_to_date raw b = true ->
    serial_out (polls hw n b) = serial_out b.
Proof.
  induction n as [|n IH]; intros b Hraw Hall; cbn [polls]; [reflexivity|].
  destruct (Key_tick_up_to_date hw raw b Hraw Hall) as [Hout Hstate].
  pose proof (sf_observations _ _ (Key_tick_frame hw b)) as Hobs.
  assert (Hpoll : serial_out (snd (State_run_poll hw b)) = serial_out b
                  /\ static_state (snd (State_run_poll hw b)) = static_state b
                  /\ (observations b
                      <= observations (snd (State_run_poll hw b)))%nat).
  { rewrite State_run_poll_eq. destruct (serial_in b); cbn; auto. }
  destruct Hpoll as (P1 & P2 & P3).
  rewrite IH.
  - exact P1.
  - intros m p Hm. apply Hraw. lia.
  - unfold up_to_date in *. rewrite P2. exact Hall.
Qed.

(** C5 (as amended). Two scans in succession, with the raw state of every
    pin unchanged from the end of the first scan on: the second scan sends
    no event byte when the first one left no change unreported, and also
    when it starts before the instant [min_tick_time]. *)
Theorem Key_tick_twice_sends_nothing
    (hw : Hardware) (raw : Z -> bool) (b : Board) :
  (forall m p, (observations (snd (Key_tick hw b)) <= m)%nat ->
               hw_low hw m p = raw p) ->
  up_to_date raw (snd (Key_tick hw b)) = true
  \/ clock hw (snd (Key_tick hw b)) < min_tick_time (snd (Key_tick hw b)) ->
  serial_out (snd (Key_tick hw (snd (Key_tick hw b))))
  = serial_out (snd (Key_tick hw b)).
Proof.
  intros Hraw [Hall | Hgate].
  - apply (Key_tick_up_to_date hw raw); [exact Hraw | exact Hall].
  - rewrite (Key_tick_eq hw (snd (Key_tick hw b))).
    apply Z.ltb_lt in Hgate. rewrite Hgate. reflexivity.
Qed.

Lemma Key_tick_twice_sends_nothing_witness :
  (forall m p,
      (observations (snd (Key_tick held_hw streaming_board)) <= m)%nat ->
      hw_low held_hw m p = true)
  /\ (up_to_date (fun _ => true) (snd (Key_tick held_hw streaming_board)) = true
      \/ clock held_hw (snd (Key_tick held_hw streaming_board))
         < min_tick_time (snd (Key_tick held_hw streaming_board)))
  /\ serial_out
       (snd (Key_tick held_hw (snd (Key_tick held_hw streaming_board))))
     = serial_out (snd (Key_tick held_hw streaming_board)).
Proof.
  split; [intros m p _; reflexivity|].
  split; [left; vm_compute; reflexivity|].
  apply (Key_tick_twice_sends_nothing held_hw (fun _ => true) streaming_board).
  - intros m p _. reflexivity.
  - left. vm_compute. reflexivity.
Defined.

(** C5, the claim as stated fails. The first scan of the example session
    found the key up and set [min_tick_time] to instant 70. The key then
    goes down and stays down. Of the next two scans, between which no pin
    changes, the first starts at instant 30 and is skipped, so it sends
    nothing and the press stays unreported; the second starts at instant
    1040, finds the timer of the key off and sends the event byte of the
    press. *)
Lemma Key_tick_twice_gated_counterexample :
  (forall m p, (observations gated_board <= m)%nat ->
               hw_low gated_hw m p = true)
  /\ clock gated_hw gated_board = 30
  /\ min_tick_time gated_board = 70
  /\ key_at 0 gated_board
     = Some {| pin := 5; was_down := false;
               debounce_timer := {| timeout := 0; enabled := false |} |}
  /\ events (snd (Key_tick gated_hw gated_board)) = events gated_board
  /\ clock gated_hw (snd (Key_tick gated_hw gated_board)) = 1040
  /\ events (snd (Key_tick gated_hw (snd (Key_tick gated_hw gated_board))))
     = events (snd (Key_tick gated_hw gated_board)) ++ [event_byte 0 true]
  /\ serial_out (snd (Key_tick gated_hw
                       (snd (Key_tick gated_hw gated_board))))
     <> serial_out (snd (Key_tick gated_hw gated_board)).
Proof.
  split.
  { intros m p Hm. vm_compute in Hm.
    change (hw_low gated_hw m p) with (3 <=? m)%nat.
    apply Nat.leb_le. lia. }
  split; [vm_compute; reflexivity|].
  split; [vm_compute; reflexivity|].
  split; [vm_compute; reflexivity|].
  split; [vm_compute; reflexivity|].
  split; [vm_compute; reflexivity|].
  split; [vm_compute; reflexivity|].
  vm_compute. discriminate.
Qed.

Lemma press_release_hw_released m p :
  (3 <= m)%nat -> hw_low press_release_hw m p = false.
Proof.
  intros Hm. change (hw_low press_release_hw m p) with (m <? 3)%nat.
  apply Nat.ltb_ge. exact Hm.
Qed.

(** C1. What the scan does at the debounce check. The key of the example
    session is reported as pressed and its timer is armed for instant 1300.
    When the key is found released at instant 700, with the timer armed and
    not yet expired, the scan sends the event byte and updates the reported
    state. When it is found released at instant 5700, with the timer
    expired, the scan sends nothing and the reported state stays. *)
Theorem Key_tick_reports_while_timer_runs :
  key_at 0 pressed_board
  = Some {| pin := 5; was_down := true;
            debounce_timer := {| timeout := 1300; enabled := true |} |}
  /\ hw_low press_release_hw (observations (Board.observe pressed_board)) 5
     = false
  /\ clock press_release_hw (Board.observe (Board.observe pressed_board)) = 700
  /\ fst (Timer.check 700 {| timeout := 1300; enabled := true |}) = false
  /\ events (snd (Key_tick press_release_hw pressed_board))
     = events pressed_board ++ [event_byte 0 false]
  /\ was_down <$> key_at 0 (snd (Key_tick press_release_hw pressed_board))
     = Some false
  /\ hw_low late_release_hw (observations (Board.observe pressed_board)) 5
     = false
  /\ clock late_release_hw (Board.observe (Board.observe pressed_board)) = 5700
  /\ fst (Timer.check 5700 {| timeout := 1300; enabled := true |}) = true
  /\ events (snd (Key_tick late_release_hw pressed_board))
     = events pressed_board
  /\ was_down <$> key_at 0 (snd (Key_tick late_release_hw pressed_board))
     = Some true.
Proof. vm_compute. repeat split. Qed.

(** C2. When an event byte is sent for a change that is then held. In the
    example session the press is reported and arms the timer for instant
    1300. The key is released and stays released. With scans every few
    hundred microseconds the release is reported by the very next scan,
    which is over at instant 1000, and never again. With the next scan
    starting at instant 5500, after the debounce time, that scan reports
    nothing; the release is reported by the scan after it. *)
Theorem release_is_not_reported_at_expiry :
  events pressed_board = [event_byte 0 true]
  /\ key_at 0 pressed_board
     = Some {| pin := 5; was_down := true;
               debounce_timer := {| timeout := 1300; enabled := true |} |}
  /\ (forall m p, (3 <= m)%nat -> hw_low press_release_hw m p = false)
  /\ clock press_release_hw (polls press_release_hw 1 pressed_board) = 1000
  /\ (forall k : nat,
         events (polls press_release_hw (S k) pressed_board)
         = [event_byte 0 true; event_byte 0 false])
  /\ (forall m p, (3 <= m)%nat -> hw_low late_release_hw m p = false)
  /\ clock late_release_hw pressed_board = 5500
  /\ events (polls late_release_hw 1 pressed_board) = [event_byte 0 true]
  /\ events (polls late_release_hw 2 pressed_board)
     = [event_byte 0 true; event_byte 0 false].
Proof.
  split; [vm_compute; reflexivity|].
  split; [vm_compute; reflexivity|].
  split; [exact press_release_hw_released|].
  split; [vm_compute; reflexivity|].
  split.
  { intros k. unfold events.
    rewrite polls_S.
    rewrite (polls_up_to_date press_release_hw (fun _ => false) k).
    - vm_compute. reflexivity.
    - intros m p Hm. apply press_release_hw_released.
      vm_compute in Hm. lia.
    - vm_compute. reflexivity. }
  split.
  { intros m p Hm. change (hw_low late_release_hw m p) with (m <? 3)%nat.
    apply Nat.ltb_ge. exact Hm. }
  vm_compute. repeat split.
Qed.

(* ===================================================================== *)
(** ** More on the timer *)
(* ===================================================================== *)

(** X1. A timer set to fire [d] microseconds after some instant [t0] and
    checked [e] microseconds after [t0] has expired exactly when [d <= e],
    wherever the 32-bit clock wraps in between, as long as the check is
    less than [2^31] microseconds away from the deadline. *)
Theorem Timer_expires_on_time (t0 d e : Z) (t : Timer) :
  - 2 ^ 31 <= e - d < 2 ^ 31 ->
  fst (Timer.check (wrap32 (t0 + e)) (Timer.set (wrap32 (t0 + d)) t))
  = (d <=? e).
Proof.
  intros Hnear.
  rewrite Timer_check_enabled by reflexivity.
  cbn [Timer.set timeout]. unfold wrap32.
  rewrite <- Zminus_mod.
  replace (t0 + e - (t0 + d)) with (e - d) by lia.
  destruct (d <=? e) eqn:Hde.
  - apply Z.leb_le in Hde. rewrite Z.mod_small by lia.
    apply Z.ltb_lt. lia.
  - apply Z.leb_gt in Hde.
    replace (e - d) with (e - d + 2 ^ 32 + (-1) * 2 ^ 32) by lia.
    rewrite Z_mod_plus_full, Z.mod_small by lia.
    apply Z.ltb_ge. lia.
Qed.

Lemma Timer_expires_on_time_witness :
  - 2 ^ 31 <= 1500 - 1000 < 2 ^ 31
  /\ fst (Timer.check (wrap32 (4294967000 + 1500))
            (Timer.set (wrap32 (4294967000 + 1000))
                       {| timeout := 0; enabled := false |}))
     = (1000 <=? 1500).
Proof.
  split; [lia|].
  apply (Timer_expires_on_time 4294967000 1000 1500
           {| timeout := 0; enabled := false |}).
  lia.
Defined.

(* ===================================================================== *)
(** ** Event bytes *)
(* ===================================================================== *)

Lemma event_byte_table :
  forallb (fun n => (event_byte (Z.of_nat n) false =? Z.of_nat n)
                    && (event_byte (Z.of_nat n) true =? Z.of_nat n + 128))
          (seq 0 128) = true.
Proof. vm_compute. reflexivity. Qed.

Lemma event_byte_small i d :
  0 <= i < 128 -> event_byte i d = i + (if d then 128 else 0).
Proof.
  intros Hi.
  pose proof event_byte_table as Htable.
  rewrite forallb_forall in Htable.
  specialize (Htable (Z.to_nat i)).
  rewrite Z2Nat.id in Htable by lia.
  destruct (andb_prop _ _ (Htable ltac:(apply in_seq; lia))) as [Hf Ht].
  apply Z.eqb_eq in Hf, Ht.
  destruct d; lia.
Qed.

(** X2. The event byte of key [i] carries the low seven bits of [i] and
    the state in bit 7, for every integer [i]: it is one byte, the host
    recovers the state from it, and the index whenever [i] is below
    [MAX_KEYS]. *)
Theorem event_byte_decodes (i : Z) (d : bool) :
  event_byte i d = i mod 128 + (if d then 128 else 0)
  /\ 0 <= event_byte i d < 256
  /\ (128 <=? event_byte i d) = d
  /\ event_byte i d mod 128 = i mod 128
  /\ (0 <= i < MAX_KEYS -> event_byte i d mod 128 = i).
Proof.
  assert (Hm : 0 <= i mod 128 < 128) by (apply Z.mod_pos_bound; lia).
  assert (Hsame : event_byte i d = event_byte (i mod 128) d).
  { unfold event_byte. f_equal. f_equal.
    change 127 with (Z.ones 7).
    rewrite !Z.land_ones by lia.
    change (2 ^ 7) with 128. rewrite Z.mod_mod by lia. reflexivity. }
  assert (Hval : event_byte i d = i mod 128 + (if d then 128 else 0)).
  { rewrite Hsame. apply event_byte_small. exact Hm. }
  split; [exact Hval|].
  split; [destruct d; lia|].
  split; [destruct d; [apply Z.leb_le | apply Z.leb_gt]; lia|].
  assert (Hmod : event_byte i d mod 128 = i mod 128).
  { rewrite Hval. destruct d.
    - replace (i mod 128 + 128) with (i mod 128 + 1 * 128) by lia.
      rewrite Z_mod_plus_full. apply Z.mod_small. exact Hm.
    - rewrite Z.add_0_r. apply Z.mod_small. exact Hm. }
  split; [exact Hmod|].
  intros Hi. rewrite Hmod. apply Z.mod_small. unfold MAX_KEYS in Hi. lia.
Qed.

(* ===================================================================== *)
(** ** The key scan and the host's view *)
(* ===================================================================== *)

Lemma alter_alter {A} (f g : A -> A) (i : nat) (l : list A) :
  alter f i (alter g i l) = alter (fun x => f (g x)) i l.
Proof.
  revert i. induction l as [|x l IH]; intros [|i]; cbn; try reflexivity.
  f_equal. apply IH.
Qed.

Lemma with_keys_same s : State.with_keys (keys s) s = s.
Proof. destruct s. reflexivity. Qed.

(** What one step of the scan does to the board: it touches key [i] only,
    keeps its pin, and either sends nothing and keeps the reported state,
    or sends the event byte of [i] for the state it then reports. *)
Ltac silent_step :=
  split; [reflexivity|]; split; [reflexivity|]; split; [reflexivity|];
  left; split; reflexivity.

Ltac event_step :=
  split; [reflexivity|]; split; [reflexivity|]; split; [reflexivity|];
  right; eexists; split; reflexivity.

Lemma Key_tick_key_effect hw i b :
  exists (f : Key -> Key) (out : list Out),
    static_state (snd (Key_tick_key hw i b))
    = State.with_keys (alter f (Z.to_nat i) (keys (static_state b)))
                      (static_state b)
    /\ serial_out (snd (Key_tick_key hw i b)) = serial_out b ++ out
    /\ (forall k, pin (f k) = pin k)
    /\ ((out = [] /\ forall k, was_down (f k) = was_down k)
        \/ exists d, out = [Write (event_byte i d)]
                     /\ forall k, was_down (f k) = d).
Proof.
  destruct b as [[dm aw ei ks kc] runs mt obs sin sout ops].
  unfold Key_tick_key, mbind, St_bind, get_state, digitalRead_is_LOW.
  cbn [static_state keys observations].
  destruct (ks !! Z.to_nat i) as [key|] eqn:Hkey.
  2:{ exists (fun k => k), []. cbn.
      rewrite list_alter_id by reflexivity. rewrite app_nil_r. silent_step. }
  cbn [Board.observe observations static_state].
  match goal with
  | |- context [negb (Bool.eqb ?x ?y)] => destruct (negb (Bool.eqb x y))
  end.
  2:{ exists (fun k => k), []. cbn.
      rewrite list_alter_id by reflexivity. rewrite app_nil_r. silent_step. }
  unfold check_now, mbind, St_bind, micros, mret, St_ret.
  cbn [Board.observe observations static_state await_smoothness].
  remember (Timer.check (wrap32 (hw_micros hw (S obs))) (debounce_timer key))
    as r eqn:Hr.
  clear Hr.
  unfold modify_key, modify_state, serial, State.with_keys, Board.with_state,
    Board.emit.
  destruct (fst r); destruct aw; cbn; rewrite ?alter_alter.
  - eexists _, []. rewrite app_nil_r. silent_step.
  - eexists _, []. rewrite app_nil_r. silent_step.
  - eexists _, [_]. event_step.
  - eexists _, [_]. event_step.
Qed.

Lemma event_bytes_app out1 out2 :
  event_bytes (out1 ++ out2) = event_bytes out1 ++ event_bytes out2.
Proof. unfold event_bytes. apply flat_map_app. Qed.

Lemma host_view_app evs1 evs2 view :
  host_view (evs1 ++ evs2) view = host_view evs2 (host_view evs1 view).
Proof. unfold host_view. apply fold_left_app. Qed.

(** One step of the scan keeps the host's view and the reported states
    together. *)
Lemma Key_tick_key_tracks hw i b n view :
  0 <= i < 128 ->
  reported n view b ->
  exists evs,
    events (snd (Key_tick_key hw i b)) = events b ++ evs
    /\ (length evs <= 1)%nat
    /\ Forall (fun c => c mod 128 = i) evs
    /\ reported n (host_view evs view) (snd (Key_tick_key hw i b))
    /\ key_count (static_state (snd (Key_tick_key hw i b)))
       = key_count (static_state b).
Proof.
  intros Hi Hrep.
  destruct (Key_tick_key_effect hw i b) as (f & out & Hstate & Hout & _ & Hcase).
  unfold events. rewrite Hout, event_bytes_app.
  assert (Hlookup : forall j key,
             key_at j (snd (Key_tick_key hw i b)) = Some key ->
             (j <> Z.to_nat i /\ key_at j b = Some key)
             \/ (j = Z.to_nat i
                 /\ exists k0, key_at j b = Some k0 /\ key = f k0)).
  { intros j key. unfold key_at. rewrite Hstate. cbn [State.with_keys keys].
    destruct (decide (Z.to_nat i = j)) as [<-|Hne].
    - rewrite list_lookup_alter_eq.
      destruct (keys (static_state b) !! Z.to_nat i) as [k0|]; [|discriminate].
      intros [= <-]. right. split; [reflexivity|]. exists k0. auto.
    - rewrite list_lookup_alter_ne by exact Hne.
      intros Hk. left. split; [congruence | exact Hk]. }
  destruct Hcase as [[-> Hsilent] | (d & -> & Hevent)].
  - exists [].
    split; [reflexivity|]. split; [cbn; lia|]. split; [constructor|].
    split; [|rewrite Hstate; reflexivity].
    intros j key Hj Hk.
    destruct (Hlookup j key Hk) as [[_ Hold] | (_ & k0 & Hold & ->)].
    + apply (Hrep j key Hj Hold).
    + rewrite Hsilent. apply (Hrep j k0 Hj Hold).
  - exists [event_byte i d].
    split; [reflexivity|]. split; [cbn; lia|].
    assert (Hidx : event_byte i d mod 128 = i).
    { rewrite event_byte_small by exact Hi. destruct d.
      - replace (i + 128) with (i + 1 * 128) by lia.
        rewrite Z_mod_plus_full. apply Z.mod_small. exact Hi.
      - rewrite Z.add_0_r. apply Z.mod_small. exact Hi. }
    assert (Hbit : (128 <=? event_byte i d) = d).
    { rewrite event_byte_small by exact Hi.
      destruct d; [apply Z.leb_le | apply Z.leb_gt]; lia. }
    split; [repeat constructor; exact Hidx|].
    split; [|rewrite Hstate; reflexivity].
    intros j key Hj Hk.
    unfold host_view. cbn [fold_left]. unfold apply_event.
    rewrite Hidx, Hbit.
    destruct (Hlookup j key Hk) as [[Hne Hold] | (-> & k0 & Hold & ->)].
    + destruct (Z.of_nat j =? i) eqn:E.
      * apply Z.eqb_eq in E. lia.
      * apply (Hrep j key Hj Hold).
    + rewrite Z2Nat.id by lia. rewrite Z.eqb_refl. apply Hevent.
Qed.

Lemma for_loop_tracks hw n count :
  forall i b view,
    0 <= i -> i + Z.of_nat count <= 128 ->
    reported n view b ->
    exists evs,
      events (snd (for_loop count i (Key_tick_key hw) b)) = events b ++ evs
      /\ (length evs <= count)%nat
      /\ Forall (fun c => i <= c mod 128 < i + Z.of_nat count) evs
      /\ reported n (host_view evs view)
           (snd (for_loop count i (Key_tick_key hw) b)).
Proof.
  induction count as [|count IH]; intros i b view Hi Hbound Hrep;
    cbn [for_loop].
  - exists []. rewrite app_nil_r. auto.
  - unfold mbind, St_bind.
    destruct (Key_tick_key_tracks hw i b n view ltac:(lia) Hrep)
      as (evs1 & E1 & L1 & F1 & R1 & _).
    destruct (Key_tick_key hw i b) as [[] b1]. cbn [snd] in *.
    destruct (IH (i + 1) b1 (host_view evs1 view) ltac:(lia) ltac:(lia) R1)
      as (evs2 & E2 & L2 & F2 & R2).
    exists (evs1 ++ evs2).
    rewrite E2, E1, app_assoc, host_view_app, length_app.
    split; [reflexivity|]. split; [lia|]. split; [|exact R2].
    apply Forall_app. split.
    + eapply Forall_impl; [exact F1|]. cbn. intros c Hc. lia.
    + eapply Forall_impl; [exact F2|]. cbn. intros c Hc. lia.
Qed.

(** X3. The reported states follow the event stream. If the reported state
    of every key is what the host believes, then after a scan it is what
    the host believes once it has applied the event bytes of that scan. A
    scan sends at most one event byte per registered key, and only event
    bytes whose index is that of a registered key. *)
Theorem Key_tick_keeps_host_in_step
    (hw : Hardware) (b : Board) (n : nat) (view : Z -> bool) :
  key_count (static_state b) <= MAX_KEYS ->
  reported n view b ->
  exists evs,
    events (snd (Key_tick hw b)) = events b ++ evs
    /\ (length evs <= Z.to_nat (key_count (static_state b)))%nat
    /\ Forall (fun c => 0 <= c mod 128 < key_count (static_state b)) evs
    /\ reported n (host_view evs view) (snd (Key_tick hw b)).
Proof.
  intros Hcap Hrep. rewrite Key_tick_eq.
  destruct (clock hw b <? min_tick_time b).
  - exists []. rewrite app_nil_r.
    split; [reflexivity|]. split; [cbn; lia|].
    split; [constructor | exact Hrep].
  - destruct (for_loop_tracks hw n (Z.to_nat (key_count (static_state b)))
                0 (Board.observe b) view) as (evs & E & L & F & R).
    + lia.
    + unfold MAX_KEYS in Hcap. lia.
    + exact Hrep.
    + exists evs. split; [exact E|]. split; [exact L|].
      split; [|exact R].
      eapply Forall_impl; [exact F|]. cbn. intros c Hc. lia.
Qed.

Lemma Key_tick_keeps_host_in_step_witness :
  key_count (static_state streaming_board) <= MAX_KEYS
  /\ reported 1 (fun _ => false) streaming_board
  /\ exists evs,
      events (snd (Key_tick held_hw streaming_board))
      = events streaming_board ++ evs
      /\ (length evs
          <= Z.to_nat (key_count (static_state streaming_board)))%nat
      /\ Forall (fun c => 0 <= c mod 128
                          < key_count (static_state streaming_board)) evs
      /\ reported 1 (host_view evs (fun _ => false))
           (snd (Key_tick held_hw streaming_board)).
Proof.
  assert (Hrep : reported 1 (fun _ => false) streaming_board).
  { intros j key Hj Hk. destruct j as [|j]; [|lia].
    vm_compute in Hk. injection Hk as <-. reflexivity. }
  split; [vm_compute; discriminate|].
  split; [exact Hrep|].
  apply (Key_tick_keeps_host_in_step held_hw streaming_board 1 (fun _ => false)).
  - vm_compute. discriminate.
  - exact Hrep.
Defined.

(** X4. While the clock reads less than [min_tick_time] the input loop
    does not scan: whatever the pins do, no event byte is sent and no key
    or timer changes. Each iteration only reads the clock once. The
    comparison is the plain unsigned one, so this also holds after the
    clock has wrapped around. *)
Theorem polls_before_min_tick_time (hw : Hardware) (n : nat) (b : Board) :
  (forall j, (j < n)%nat ->
             wrap32 (hw_micros hw (observations b + j)) < min_tick_time b) ->
  static_state (polls hw n b) = static_state b
  /\ serial_out (polls hw n b) = serial_out b
  /\ min_tick_time (polls hw n b) = min_tick_time b
  /\ observations (polls hw n b) = (observations b + n)%nat.
Proof.
  revert b. induction n as [|n IH]; intros b Hgate; cbn [polls].
  - repeat split. lia.
  - assert (Hpoll : static_state (snd (State_run_poll hw b)) = static_state b
                    /\ serial_out (snd (State_run_poll hw b)) = serial_out b
                    /\ min_tick_time (snd (State_run_poll hw b))
                       = min_tick_time b
                    /\ observations (snd (State_run_poll hw b))
                       = S (observations b)).
    { rewrite State_run_poll_eq, Key_tick_eq.
      specialize (Hgate 0%nat ltac:(lia)).
      rewrite Nat.add_0_r in Hgate. apply Z.ltb_lt in Hgate.
      unfold clock. rewrite Hgate.
      destruct (serial_in b); repeat split. }
    destruct Hpoll as (P1 & P2 & P3 & P4).
    destruct (IH (snd (State_run_poll hw b))) as (H1 & H2 & H3 & H4).
    + intros j Hj. rewrite P3, P4.
      replace (S (observations b) + j)%nat with (observations b + S j)%nat
        by lia.
      apply Hgate. lia.
    + rewrite H1, H2, H3, H4, P1, P2, P3, P4. repeat split. lia.
Qed.

Lemma polls_before_min_tick_time_witness :
  (forall j, (j < 3)%nat ->
     wrap32 (hw_micros wrapping_hw
               (observations (polls wrapping_hw 1 streaming_board) + j))
     < min_tick_time (polls wrapping_hw 1 streaming_board))
  /\ static_state (polls wrapping_hw 3 (polls wrapping_hw 1 streaming_board))
     = static_state (polls wrapping_hw 1 streaming_board)
  /\ serial_out (polls wrapping_hw 3 (polls wrapping_hw 1 streaming_board))
     = serial_out (polls wrapping_hw 1 streaming_board)
  /\ min_tick_time (polls wrapping_hw 3 (polls wrapping_hw 1 streaming_board))
     = min_tick_time (polls wrapping_hw 1 streaming_board)
  /\ observations (polls wrapping_hw 3 (polls wrapping_hw 1 streaming_board))
     = (observations (polls wrapping_hw 1 streaming_board) + 3)%nat.
Proof.
  assert (Hgate : forall j, (j < 3)%nat ->
     wrap32 (hw_micros wrapping_hw
               (observations (polls wrapping_hw 1 streaming_board) + j))
     < min_tick_time (polls wrapping_hw 1 streaming_board)).
  { intros j Hj.
    destruct j as [|[|[|j]]]; [vm_compute; reflexivity ..|lia]. }
  split; [exact Hgate|].
  apply (polls_before_min_tick_time wrapping_hw 3
           (polls wrapping_hw 1 streaming_board)).
  exact Hgate.
Defined.

(* ===================================================================== *)
(** ** Invariants of a whole session *)
(* ===================================================================== *)

Section KeepsM.

Context (R : relation Board) `{!PreOrder R}.

Lemma keepsM_ret {A} (a : A) : keepsM R (mret a).
Proof. intros b. reflexivity. Qed.

Lemma keepsM_bind {A B} (m : M A) (f : A -> M B) :
  keepsM R m -> (forall a, keepsM R (f a)) -> keepsM R (m ≫= f).
Proof.
  intros Hm Hf b. unfold mbind, M_bind.
  specialize (Hm b). destruct (m b) as [a b1|b1|b1]; cbn [final_board] in *.
  - etransitivity; [exact Hm | apply Hf].
  - exact Hm.
  - exact Hm.
Qed.

Lemma keepsM_lift {A} (m : St A) : keeps R m -> keepsM R (lift m).
Proof.
  intros Hm b. unfold lift. specialize (Hm b).
  destruct (m b) as [a b1]. exact Hm.
Qed.

Lemma keepsM_spinning {A} : keepsM R (fun b => @Spinning A b).
Proof. intros b. reflexivity. Qed.

Lemma keepsM_next_serial_byte :
  (forall l b, R b (Board.with_serial_in l b)) -> keepsM R next_serial_byte.
Proof.
  intros Hin b. unfold next_serial_byte.
  destruct (serial_in b); [reflexivity | apply Hin].
Qed.

End KeepsM.

#[export] Instance keeps_registry_preorder : PreOrder keeps_registry.
Proof.
  split.
  - intros b H. exact H.
  - intros b1 b2 b3 H12 H23 H. apply H23, H12, H.
Qed.

(** Steps that leave [static_state] alone keep every property of it. *)
Lemma registry_same_state b b' :
  static_state b' = static_state b -> keeps_registry b b'.
Proof. intros E H. rewrite E. exact H. Qed.

Lemma registry_micros hw : keeps keeps_registry (micros hw).
Proof. intros b. apply registry_same_state. reflexivity. Qed.

Lemma registry_digitalRead hw p :
  keeps keeps_registry (digitalRead_is_LOW hw p).
Proof. intros b. apply registry_same_state. reflexivity. Qed.

Lemma registry_put_min_tick_time t :
  keeps keeps_registry (put_min_tick_time t).
Proof. intros b. apply registry_same_state. reflexivity. Qed.

Lemma registry_get_static_runs : keeps keeps_registry get_static_runs.
Proof. intros b. apply registry_same_state. reflexivity. Qed.

Lemma registry_put_static_runs n : keeps keeps_registry (put_static_runs n).
Proof. intros b. apply registry_same_state. reflexivity. Qed.

Lemma registry_serial o : keeps keeps_registry (serial o).
Proof. intros b. apply registry_same_state. reflexivity. Qed.

Lemma registry_pin_call o : keeps keeps_registry (pin_call o).
Proof. intros b. apply registry_same_state. reflexivity. Qed.

Lemma registry_Serial_read : keeps keeps_registry Serial_read.
Proof.
  intros b. apply registry_same_state. unfold Serial_read.
  destruct (serial_in b); reflexivity.
Qed.

Lemma registry_modify_key i f : keeps keeps_registry (modify_key i f).
Proof.
  intros b [Hlen Hcount]. split; cbn.
  - rewrite length_alter. exact Hlen.
  - exact Hcount.
Qed.

Lemma registry_init : keeps keeps_registry (modify_state State.init).
Proof.
  intros b [Hlen _]. split; cbn; [exact Hlen | unfold MAX_KEYS; lia].
Qed.

Lemma registry_with_debounce_micros d :
  keeps keeps_registry (modify_state (State.with_debounce_micros d)).
Proof. intros b H. exact H. Qed.

Lemma registry_with_await_smoothness a :
  keeps keeps_registry (modify_state (State.with_await_smoothness a)).
Proof. intros b H. exact H. Qed.

Lemma registry_with_enable_interrupts e :
  keeps keeps_registry (modify_state (State.with_enable_interrupts e)).
Proof. intros b H. exact H. Qed.

(** [Key_setup] stops at the end of the array. *)
Lemma registry_Key_setup p : keeps keeps_registry (Key_setup p).
Proof.
  intros b [Hlen Hcount].
  unfold Key_setup, mbind, St_bind, get_state.
  destruct (key_count (static_state b) <? MAX_KEYS) eqn:Hroom.
  - apply Z.ltb_lt in Hroom. split; cbn.
    + rewrite length_alter. exact Hlen.
    + lia.
  - split; cbn; assumption.
Qed.

#[export] Hint Resolve registry_micros registry_digitalRead
  registry_put_min_tick_time registry_get_static_runs
  registry_put_static_runs registry_serial registry_pin_call
  registry_Serial_read registry_modify_key registry_init
  registry_with_debounce_micros registry_with_await_smoothness
  registry_with_enable_interrupts registry_Key_setup : frame.

Lemma registry_with_serial_in l b :
  keeps_registry b (Board.with_serial_in l b).
Proof. apply registry_same_state. reflexivity. Qed.

#[export] Hint Resolve registry_with_serial_in : frame.

(** Takes a computation that may wait apart along its binds and
    branches. *)
Ltac keepsM_tac :=
  repeat (first
         [ progress intros
         | match goal with
          | |- keepsM _ (mret _) => apply keepsM_ret; typeclasses eauto
          | |- keepsM _ (mbind _ _) =>
            apply keepsM_bind; [typeclasses eauto| |]
          | |- keepsM _ (lift _) => apply keepsM_lift
          | |- keepsM _ next_serial_byte =>
            first [ solve [auto with frame]
                  | apply keepsM_next_serial_byte;
                    [typeclasses eauto | solve [auto with frame]] ]
          | |- keepsM _ (fun b => Spinning b) =>
            apply keepsM_spinning; typeclasses eauto
          | |- keepsM _ (if ?c then _ else _) => destruct c
          | |- keepsM _ (match ?x with Some _ => _ | None => _ end) =>
            destruct x
          | |- keepsM _ (let (_, _) := ?x in _) => destruct x
          | |- keeps _ _ => solve [keeps_tac]
          end ]).

Lemma registry_Key_tick hw : keeps keeps_registry (Key_tick hw).
Proof.
  unfold Key_tick. keeps_tac.
  unfold Key_tick_key, check_now. keeps_tac.
Qed.

Lemma registry_set_debounce d : keeps keeps_registry (set_debounce d).
Proof. unfold set_debounce. keeps_tac. Qed.

Lemma registry_set_await_smoothness a :
  keeps keeps_registry (set_await_smoothness a).
Proof. unfold set_await_smoothness. keeps_tac. Qed.

Lemma registry_set_enable_interrupts e :
  keeps keeps_registry (set_enable_interrupts e).
Proof. unfold set_enable_interrupts. keeps_tac. Qed.

#[export] Hint Resolve registry_Key_tick registry_set_debounce
  registry_set_await_smoothness registry_set_enable_interrupts : frame.

Lemma registry_read_excess n : keepsM keeps_registry (read_excess n).
Proof. induction n as [|n IH]; cbn [read_excess]; keepsM_tac. exact IH. Qed.

Lemma registry_resync fuel :
  forall magic_idx garbage,
    keepsM keeps_registry (State_run_resync fuel magic_idx garbage).
Proof.
  induction fuel as [|fuel IH]; intros magic_idx garbage;
    cbn [State_run_resync]; keepsM_tac; apply IH.
Qed.

Lemma registry_command : keepsM keeps_registry State_run_command.
Proof.
  unfold State_run_command, State_run_switch. keepsM_tac;
    apply registry_read_excess.
Qed.

Lemma registry_commands fuel :
  keepsM keeps_registry (State_run_commands fuel).
Proof.
  induction fuel as [|fuel IH]; cbn [State_run_commands]; keepsM_tac;
    first [apply registry_command | exact IH].
Qed.

Lemma registry_input hw fuel :
  keepsM keeps_registry (State_run_input hw fuel).
Proof.
  induction fuel as [|fuel IH]; cbn [State_run_input]; keepsM_tac;
    first [exact IH | unfold State_run_poll; keeps_tac].
Qed.

Lemma registry_State_run hw fuel : keepsM keeps_registry (State_run hw fuel).
Proof.
  unfold State_run, State_run_setup, State_run_handshake, State_run_hello,
    State_run_open_pins, State_run_open_pin, State_run_cleanup,
    State_run_cleanup_pin.
  keepsM_tac;
    first [apply registry_resync | apply registry_commands
          | apply registry_input].
Qed.

(** X5. The registry stays inside its array. If [keys] has [MAX_KEYS]
    slots and [key_count] is between 0 and [MAX_KEYS] when [loop] starts a
    session, the same holds when the session has ended, is blocked waiting
    for the host or is still running, whatever the host sends and whatever
    the hardware does; every index below [key_count] then is a slot of the
    array. *)
Theorem registry_stays_in_bounds (hw : Hardware) (fuel : nat) (b : Board) :
  registry_ok (static_state b) ->
  registry_ok (static_state (final_board (loop hw fuel b)))
  /\ forall i : nat,
      (i < Z.to_nat (key_count (static_state (final_board (loop hw fuel b)))))%nat ->
      is_Some (key_at i (final_board (loop hw fuel b))).
Proof.
  intros Hok.
  assert (Hloop : keepsM keeps_registry (loop hw fuel)).
  { unfold loop. keepsM_tac. apply registry_State_run. }
  specialize (Hloop b Hok).
  split; [exact Hloop|].
  intros i Hi. unfold key_at. apply lookup_lt_is_Some.
  destruct Hloop as [Hlen Hcount]. rewrite Hlen. lia.
Qed.

Lemma registry_stays_in_bounds_witness :
  registry_ok (static_state (power_up one_key_session))
  /\ registry_ok
       (static_state
          (final_board (loop idle_hw 20 (power_up one_key_session))))
  /\ forall i : nat,
      (i < Z.to_nat
             (key_count
                (static_state
                   (final_board (loop idle_hw 20 (power_up one_key_session))))))%nat ->
      is_Some
        (key_at i (final_board (loop idle_hw 20 (power_up one_key_session)))).
Proof.
  assert (Hok : registry_ok (static_state (power_up one_key_session))).
  { split; [reflexivity | unfold MAX_KEYS; cbn; lia]. }
  split; [exact Hok|].
  apply (registry_stays_in_bounds idle_hw 20 (power_up one_key_session)).
  exact Hok.
Defined.

(* ===================================================================== *)
(** ** Command framing *)
(* ===================================================================== *)

Lemma lor_shiftl_add hi lo k :
  0 <= k -> 0 <= lo < 2 ^ k -> Z.lor (Z.shiftl hi k) lo = hi * 2 ^ k + lo.
Proof.
  intros Hk Hlo.
  assert (Hdisjoint : Z.land (Z.shiftl hi k) lo = 0).
  { rewrite <- (Z.mod_small lo (2 ^ k)) by exact Hlo.
    rewrite <- Z.land_ones by exact Hk.
    rewrite (Z.land_comm lo), Z.land_assoc.
    rewrite (Z.land_ones (Z.shiftl hi k)) by exact Hk.
    rewrite Z.shiftl_mul_pow2 by exact Hk.
    rewrite Z_mod_mult. reflexivity. }
  rewrite <- Z.lxor_lor by exact Hdisjoint.
  rewrite <- Z.add_nocarry_lxor by exact Hdisjoint.
  rewrite Z.shiftl_mul_pow2 by exact Hk. reflexivity.
Qed.

Lemma declared_length_value hi lo :
  declared_length hi lo = 256 * byte_Z hi + byte_Z lo
  /\ 0 <= declared_length hi lo <= 65535.
Proof.
  pose proof (byte_Z_range hi). pose proof (byte_Z_range lo).
  unfold declared_length.
  rewrite lor_shiftl_add by lia. lia.
Qed.

Lemma lift_eq {A} (m : St A) b : lift m b = Ok (fst (m b)) (snd (m b)).
Proof. unfold lift. destruct (m b). reflexivity. Qed.

Lemma input_serial o : keeps same_input (serial o).
Proof. intros b. reflexivity. Qed.

Lemma input_modify_state f : keeps same_input (modify_state f).
Proof. intros b. reflexivity. Qed.

Lemma input_modify_key i f : keeps same_input (modify_key i f).
Proof. intros b. reflexivity. Qed.

#[export] Hint Resolve input_serial input_modify_state input_modify_key
  : frame.

Lemma input_Key_setup p : keeps same_input (Key_setup p).
Proof. unfold Key_setup. keeps_tac. Qed.

Lemma input_set_debounce d : keeps same_input (set_debounce d).
Proof. unfold set_debounce. keeps_tac. Qed.

Lemma input_set_await_smoothness a : keeps same_input (set_await_smoothness a).
Proof. unfold set_await_smoothness. keeps_tac. Qed.

Lemma input_set_enable_interrupts e :
  keeps same_input (set_enable_interrupts e).
Proof. unfold set_enable_interrupts. keeps_tac. Qed.

(** Reading [n] bytes the host has sent. *)
Lemma read_excess_drop n :
  forall b,
    (n <= length (serial_in b))%nat ->
    read_excess n b = Ok tt (Board.with_serial_in (drop n (serial_in b)) b).
Proof.
  induction n as [|n IH]; intros b Hroom; cbn [read_excess].
  - destruct b. reflexivity.
  - unfold mbind, M_bind, next_serial_byte.
    destruct (serial_in b) as [|c l] eqn:Hin; [cbn in Hroom; lia|].
    rewrite IH by (cbn in *; lia). reflexivity.
Qed.

Lemma drop_0_same {A} (l : list A) (n : Z) : drop (Z.to_nat (n - n)) l = l.
Proof. rewrite Z.sub_diag. reflexivity. Qed.

(** A branch of the [switch] that reads nothing. *)
Ltac reads_nothing pc len :=
  unfold mbind, M_bind; rewrite ?lift_eq; cbn [fst snd serial mret M_ret];
  eexists pc, len, _; split; [reflexivity|];
  split; [lia|]; rewrite drop_0_same; reflexivity.

(** The [switch] reads what its command takes from the payload and leaves
    the rest of the declared length to be read afterwards. *)
Lemma State_run_switch_reads cmd len b :
  cmd <> CMD_RESET ->
  0 <= len ->
  (Z.to_nat len <= length (serial_in b))%nat ->
  exists pc len' b',
    State_run_switch cmd len b = Ok (Some (pc, len')) b'
    /\ 0 <= len' <= len
    /\ serial_in b' = drop (Z.to_nat (len - len')) (serial_in b).
Proof.
  intros Hreset Hlen Hroom. unfold State_run_switch.
  destruct (cmd =? SETUPCMD_FINISH); [reads_nothing false len|].
  destruct (cmd =? SETUPCMD_ADD_KEY).
  { destruct (len <? 1) eqn:Hshort; [reads_nothing true len|].
    apply Z.ltb_ge in Hshort.
    destruct (serial_in b) as [|p l] eqn:Hin; [cbn in Hroom; lia|].
    unfold mbind, M_bind.
    rewrite (next_serial_byte_cons p l) by exact Hin.
    rewrite lift_eq. cbn [mret M_ret].
    eexists true, (len - 1), _. split; [reflexivity|]. split; [lia|].
    rewrite (input_Key_setup (byte_Z p) (Board.with_serial_in l b)).
    replace (Z.to_nat (len - (len - 1))) with 1%nat by lia. reflexivity. }
  destruct (cmd =? SETUPCMD_SET_DEBOUNCE).
  { destruct (len <? 4) eqn:Hshort; [reads_nothing true len|].
    apply Z.ltb_ge in Hshort.
    destruct (serial_in b) as [|b3 [|b2 [|b1 [|b0 l]]]] eqn:Hin;
      try (cbn in Hroom; lia).
    unfold mbind, M_bind.
    rewrite (next_serial_byte_cons b3 (b2 :: b1 :: b0 :: l)) by exact Hin.
    rewrite (next_serial_byte_cons b2 (b1 :: b0 :: l)) by reflexivity.
    rewrite (next_serial_byte_cons b1 (b0 :: l)) by reflexivity.
    rewrite (next_serial_byte_cons b0 l) by reflexivity.
    rewrite lift_eq. cbn [mret M_ret].
    eexists true, (len - 4), _. split; [reflexivity|]. split; [lia|].
    rewrite input_set_debounce.
    replace (Z.to_nat (len - (len - 4))) with 4%nat by lia. reflexivity. }
  destruct (cmd =? SETUPCMD_AWAIT_SMOOTHNESS).
  { destruct (len <? 1) eqn:Hshort; [reads_nothing true len|].
    apply Z.ltb_ge in Hshort.
    destruct (serial_in b) as [|v l] eqn:Hin; [cbn in Hroom; lia|].
    unfold mbind, M_bind.
    rewrite (next_serial_byte_cons v l) by exact Hin.
    rewrite lift_eq. cbn [mret M_ret].
    eexists true, (len - 1), _. split; [reflexivity|]. split; [lia|].
    rewrite input_set_await_smoothness.
    replace (Z.to_nat (len - (len - 1))) with 1%nat by lia. reflexivity. }
  destruct (cmd =? CMD_RESET) eqn:E; [apply Z.eqb_eq in E; contradiction|].
  destruct (cmd =? SETUPCMD_ENABLE_INTERRUPTS).
  { destruct (len <? 1) eqn:Hshort; [reads_nothing true len|].
    apply Z.ltb_ge in Hshort.
    destruct (serial_in b) as [|v l] eqn:Hin; [cbn in Hroom; lia|].
    unfold mbind, M_bind.
    rewrite (next_serial_byte_cons v l) by exact Hin.
    rewrite lift_eq. cbn [mret M_ret].
    eexists true, (len - 1), _. split; [reflexivity|]. split; [lia|].
    rewrite input_set_enable_interrupts.
    replace (Z.to_nat (len - (len - 1))) with 1%nat by lia. reflexivity. }
  reads_nothing true len.
Qed.

(** X6. Framing. For every command byte except RESET and except an
    ENABLE_INTERRUPTS that declares a payload (the one command that calls
    [set_enable_interrupts]), once the host has sent the header and as
    many payload bytes as the header declares, an iteration of the command
    loop returns having read exactly the three header bytes and the
    declared number of payload bytes, whether the command is accepted, too
    short or unknown. *)
Theorem State_run_command_reads_declared_length
    (b : Board) (cmd hi lo : byte) (tl : list byte) :
  serial_in b = cmd :: hi :: lo :: tl ->
  byte_Z cmd <> CMD_RESET ->
  (byte_Z cmd = SETUPCMD_ENABLE_INTERRUPTS -> declared_length hi lo = 0) ->
  (Z.to_nat (declared_length hi lo) <= length tl)%nat ->
  exists pc b',
    State_run_command b = Ok (Some pc) b'
    /\ serial_in b' = drop (Z.to_nat (declared_length hi lo)) tl
    /\ (pc = false <-> byte_Z cmd = SETUPCMD_FINISH).
Proof.
  intros Hin Hreset _ Hroom.
  destruct (declared_length_value hi lo) as [_ [Hlen _]].
  rewrite (State_run_command_header cmd hi lo tl) by exact Hin.
  destruct (State_run_switch_reads (byte_Z cmd) (declared_length hi lo)
              (Board.with_serial_in tl b) Hreset Hlen Hroom)
    as (pc & len' & b1 & Hswitch & Hlen' & Hin1).
  cbn [serial_in Board.with_serial_in] in Hin1.
  assert (Hpc : pc = false <-> byte_Z cmd = SETUPCMD_FINISH).
  { revert Hswitch. unfold State_run_switch.
    destruct (byte_Z cmd =? SETUPCMD_FINISH) eqn:E.
    - apply Z.eqb_eq in E. unfold mbind, M_bind. rewrite lift_eq.
      cbn [mret M_ret]. intros [= <- _ _]. tauto.
    - apply Z.eqb_neq in E. intros Hswitch.
      assert (pc = true); [|subst pc; split; [discriminate | contradiction]].
      revert Hswitch. unfold mbind, M_bind.
      repeat match goal with
             | |- context [if ?c then _ else _] => destruct c
             | |- context [next_serial_byte ?x] => destruct (next_serial_byte x)
             | |- context [lift ?m ?x] => rewrite (lift_eq m x)
             end;
        cbn [mret M_ret]; try discriminate; intros [= <- _ _]; reflexivity. }
  unfold mbind at 1, M_bind at 1. rewrite Hswitch.
  unfold mbind, M_bind.
  rewrite read_excess_drop.
  - exists pc, (Board.with_serial_in (drop (Z.to_nat len') (serial_in b1)) b1).
    split; [reflexivity|]. split; [|exact Hpc].
    cbn [serial_in Board.with_serial_in].
    rewrite Hin1, drop_drop. f_equal. lia.
  - rewrite Hin1, length_drop. lia.
Qed.

Lemma State_run_command_reads_declared_length_witness :
  serial_in (power_up [xdb; x00; x05; x00; x00; x07; xd0; "z"; x0f; x00; x00]%byte)
  = xdb :: x00 :: x05 :: [x00; x00; x07; xd0; "z"; x0f; x00; x00]%byte
  /\ byte_Z xdb <> CMD_RESET
  /\ (byte_Z xdb = SETUPCMD_ENABLE_INTERRUPTS -> declared_length x00 x05 = 0)
  /\ (Z.to_nat (declared_length x00 x05)
      <= length [x00; x00; x07; xd0; "z"; x0f; x00; x00]%byte)%nat
  /\ exists pc b',
      State_run_command
        (power_up [xdb; x00; x05; x00; x00; x07; xd0; "z"; x0f; x00; x00]%byte)
      = Ok (Some pc) b'
      /\ serial_in b'
         = drop (Z.to_nat (declared_length x00 x05))
                [x00; x00; x07; xd0; "z"; x0f; x00; x00]%byte
      /\ (pc = false <-> byte_Z xdb = SETUPCMD_FINISH).
Proof.
  split; [reflexivity|].
  split; [discriminate|].
  split; [discriminate|].
  split; [vm_compute; lia|].
  apply (State_run_command_reads_declared_length
           (power_up [xdb; x00; x05; x00; x00; x07; xd0; "z"; x0f; x00; x00]%byte)
           xdb x00 x05 [x00; x00; x07; xd0; "z"; x0f; x00; x00]%byte).
  - reflexivity.
  - discriminate.
  - discriminate.
  - vm_compute. lia.
Defined.

(* ===================================================================== *)
(** ** Registering keys *)
(* ===================================================================== *)

Lemma Key_setup_room p b :
  key_count (static_state b) < MAX_KEYS ->
  Key_setup p b
  = (tt,
     Board.with_state
       (State.with_key_count (key_count (static_state b) + 1)
          (State.with_keys
             (alter (Key.init p) (Z.to_nat (key_count (static_state b)))
                    (keys (static_state b)))
             (static_state b)))
       (emit_all [Print "added key "; PrintNum (key_count (static_state b));
                  Print " to pin "; PrintlnNum p] b)).
Proof.
  intros Hroom. apply Z.ltb_lt in Hroom.
  unfold Key_setup, mbind, St_bind, get_state. rewrite Hroom.
  reflexivity.
Qed.

Lemma Key_setup_full p b :
  MAX_KEYS <= key_count (static_state b) ->
  Key_setup p b = (tt, Board.emit (Println "max key limit reached") b).
Proof.
  intros Hfull. apply Z.ltb_ge in Hfull.
  unfold Key_setup, mbind, St_bind, get_state. rewrite Hfull. reflexivity.
Qed.

(** The effect of [Key_setup] when the registry has room. *)
Lemma Key_setup_effect (p : Z) (b : Board) :
  registry_ok (static_state b) ->
  key_count (static_state b) < MAX_KEYS ->
  key_count (static_state (snd (Key_setup p b)))
  = key_count (static_state b) + 1
  /\ (exists t,
         key_at (Z.to_nat (key_count (static_state b))) (snd (Key_setup p b))
         = Some {| pin := p mod 256; was_down := false; debounce_timer := t |}
         /\ enabled t = false)
  /\ (forall j, j <> Z.to_nat (key_count (static_state b)) ->
                key_at j (snd (Key_setup p b)) = key_at j b)
  /\ debounce_micros (static_state (snd (Key_setup p b)))
     = debounce_micros (static_state b)
  /\ await_smoothness (static_state (snd (Key_setup p b)))
     = await_smoothness (static_state b)
  /\ enable_interrupts (static_state (snd (Key_setup p b)))
     = enable_interrupts (static_state b).
Proof.
  intros [Hlen Hcount] Hroom. rewrite (Key_setup_room p b Hroom).
  cbn [snd static_state Board.with_state State.with_key_count
       State.with_keys key_count keys debounce_micros await_smoothness
       enable_interrupts].
  split; [reflexivity|]. split.
  - unfold key_at. cbn [static_state Board.with_state State.with_key_count
                        State.with_keys keys].
    rewrite list_lookup_alter_eq.
    destruct (lookup_lt_is_Some_2 (keys (static_state b))
                (Z.to_nat (key_count (static_state b)))) as [k0 Hk0].
    { rewrite Hlen. unfold MAX_KEYS in *. lia. }
    rewrite Hk0. cbn. eexists. split; reflexivity.
  - split; [|repeat split].
    intros j Hj. unfold key_at.
    cbn [static_state Board.with_state State.with_key_count
         State.with_keys keys].
    apply list_lookup_alter_ne. congruence.
Qed.


(** X7. [Key_setup] with room left: the key goes into slot [key_count]
    with the pin number reduced to a byte, not reported as down and with
    its timer off; [key_count] grows by one; the other slots and the
    settings are as before. *)
Theorem Key_setup_registers (p : Z) (b : Board) :
  registry_ok (static_state b) ->
  key_count (static_state b) < MAX_KEYS ->
  key_count (static_state (snd (Key_setup p b)))
  = key_count (static_state b) + 1
  /\ (exists t,
         key_at (Z.to_nat (key_count (static_state b))) (snd (Key_setup p b))
         = Some {| pin := p mod 256; was_down := false; debounce_timer := t |}
         /\ enabled t = false)
  /\ (forall j, j <> Z.to_nat (key_count (static_state b)) ->
                key_at j (snd (Key_setup p b)) = key_at j b)
  /\ debounce_micros (static_state (snd (Key_setup p b)))
     = debounce_micros (static_state b)
  /\ await_smoothness (static_state (snd (Key_setup p b)))
     = await_smoothness (static_state b)
  /\ enable_interrupts (static_state (snd (Key_setup p b)))
     = enable_interrupts (static_state b).
Proof.
  intros Hok Hroom.
  destruct (Key_setup_effect p b Hok Hroom)
    as (Hcount & Hnew & Hold & Hdebounce & Hawait & Hinterrupts).
  repeat split; assumption.
Qed.

Lemma Key_setup_registers_witness :
  registry_ok (static_state streaming_board)
  /\ key_count (static_state streaming_board) < MAX_KEYS
  /\ key_count (static_state (snd (Key_setup 7 streaming_board)))
     = key_count (static_state streaming_board) + 1
  /\ (exists t,
         key_at (Z.to_nat (key_count (static_state streaming_board)))
                (snd (Key_setup 7 streaming_board))
         = Some {| pin := 7 mod 256; was_down := false; debounce_timer := t |}
         /\ enabled t = false)
  /\ (forall j, j <> Z.to_nat (key_count (static_state streaming_board)) ->
                key_at j (snd (Key_setup 7 streaming_board))
                = key_at j streaming_board)
  /\ debounce_micros (static_state (snd (Key_setup 7 streaming_board)))
     = debounce_micros (static_state streaming_board)
  /\ await_smoothness (static_state (snd (Key_setup 7 streaming_board)))
     = await_smoothness (static_state streaming_board)
  /\ enable_interrupts (static_state (snd (Key_setup 7 streaming_board)))
     = enable_interrupts (static_state streaming_board).
Proof.
  assert (Hok : registry_ok (static_state streaming_board)).
  { split; [vm_compute; reflexivity | vm_compute; split; discriminate]. }
  split; [exact Hok|].
  split; [vm_compute; reflexivity|].
  apply (Key_setup_registers 7 streaming_board).
  - exact Hok.
  - vm_compute. reflexivity.
Defined.

(** X8. [Key_setup] with the registry full: the key is dropped. The
    registry and the settings are as before and the only thing sent is the
    line "max key limit reached". *)
Theorem Key_setup_full_is_dropped (p : Z) (b : Board) :
  MAX_KEYS <= key_count (static_state b) ->
  static_state (snd (Key_setup p b)) = static_state b
  /\ serial_out (snd (Key_setup p b))
     = serial_out b ++ [Println "max key limit reached"]
  /\ events (snd (Key_setup p b)) = events b.
Proof.
  intros Hfull. rewrite (Key_setup_full p b Hfull).
  split; [reflexivity|]. split; [reflexivity|].
  unfold events. cbn [snd Board.emit serial_out].
  rewrite flat_map_app. cbn. apply app_nil_r.
Qed.

Lemma Key_setup_full_is_dropped_witness :
  MAX_KEYS <= key_count (static_state full_board)
  /\ static_state (snd (Key_setup 9 full_board)) = static_state full_board
  /\ serial_out (snd (Key_setup 9 full_board))
     = serial_out full_board ++ [Println "max key limit reached"]
  /\ events (snd (Key_setup 9 full_board)) = events full_board.
Proof.
  split; [vm_compute; discriminate|].
  apply (Key_setup_full_is_dropped 9 full_board).
  vm_compute. discriminate.
Defined.

Lemma with_serial_in_same l b : serial_in b = l -> Board.with_serial_in l b = b.
Proof. intros <-. destruct b. reflexivity. Qed.

Lemma State_run_command_finish b rest :
  State_run_command (Board.with_serial_in (x0f :: x00 :: x00 :: rest) b)
  = Ok (Some false)
       (Board.emit (Println "finished handling setup commands")
                   (Board.with_serial_in rest b)).
Proof.
  rewrite (State_run_command_header x0f x00 x00 rest) by reflexivity.
  reflexivity.
Qed.

Lemma State_run_command_add_key b p tl :
  State_run_command (Board.with_serial_in (xad :: x00 :: x01 :: p :: tl) b)
  = Ok (Some true) (snd (Key_setup (byte_Z p) (Board.with_serial_in tl b))).
Proof.
  rewrite (State_run_command_header xad x00 x01 (p :: tl)) by reflexivity.
  unfold mbind at 1, M_bind at 1.
  change (State_run_switch (byte_Z xad) (declared_length x00 x01))
    with (p0 ← next_serial_byte; lift (Key_setup p0);; mret (Some (true, 0))).
  unfold mbind, M_bind.
  rewrite (next_serial_byte_cons p tl) by reflexivity.
  rewrite lift_eq. reflexivity.
Qed.

(** X9. Keys are numbered in the order of their ADD_KEY commands. When
    the host sends one ADD_KEY command per pin of a list and then FINISH,
    and the registry has room for all of them, the command loop ends with
    [key_count] grown by the length of the list, the i-th new slot holding
    the i-th pin, not reported as down and with its timer off, and the
    slots registered before untouched. *)
Theorem add_keys_register_in_order
    (pins : list byte) (b : Board) (rest : list byte) (fuel : nat) :
  registry_ok (static_state b) ->
  key_count (static_state b) + Z.of_nat (length pins) <= MAX_KEYS ->
  exists b',
    State_run_commands (S (length pins + fuel))
      (Board.with_serial_in
         (add_key_commands pins ++ [x0f; x00; x00] ++ rest) b)
    = Ok true b'
    /\ serial_in b' = rest
    /\ key_count (static_state b')
       = key_count (static_state b) + Z.of_nat (length pins)
    /\ (forall i p,
           pins !! i = Some p ->
           exists t,
             key_at (Z.to_nat (key_count (static_state b)) + i) b'
             = Some {| pin := byte_Z p; was_down := false;
                       debounce_timer := t |}
             /\ enabled t = false)
    /\ (forall j, (j < Z.to_nat (key_count (static_state b)))%nat ->
                  key_at j b' = key_at j b).
Proof.
  revert b. induction pins as [|p pins IH]; intros b Hok Hroom.
  - cbn [length Nat.add add_key_commands flat_map app State_run_commands].
    unfold mbind, M_bind. rewrite State_run_command_finish.
    eexists. split; [reflexivity|].
    split; [reflexivity|]. split; [cbn; lia|].
    split; [intros i p Hp; discriminate Hp | reflexivity].
  - pose proof Hok as [Hlen Hcount].
    cbn [length] in Hroom.
    assert (Hfree : key_count (static_state b) < MAX_KEYS) by lia.
    cbn [length Nat.add add_key_commands flat_map State_run_commands].
    rewrite <- app_assoc. cbn [app].
    unfold mbind at 1, M_bind at 1. rewrite State_run_command_add_key.
    fold (add_key_commands pins).
    set (tl := add_key_commands pins ++ [x0f; x00; x00] ++ rest).
    set (b1 := snd (Key_setup (byte_Z p) (Board.with_serial_in tl b))).
    destruct (Key_setup_effect (byte_Z p) (Board.with_serial_in tl b) Hok Hfree)
      as (Hcount1 & (t & Hnew & Ht) & Hold & _).
    fold b1 in Hcount1, Hnew, Hold.
    cbn [static_state Board.with_serial_in] in Hcount1, Hnew, Hold.
    assert (Hok1 : registry_ok (static_state b1))
      by (apply (registry_Key_setup (byte_Z p) (Board.with_serial_in tl b)), Hok).
    assert (Hin1 : Board.with_serial_in tl b1 = b1).
    { apply with_serial_in_same.
      apply (input_Key_setup (byte_Z p) (Board.with_serial_in tl b)). }
    destruct (IH b1 Hok1 ltac:(lia)) as (b' & Hrun & Hin & Hcnt & Hnews & Holds).
    fold tl in Hrun. rewrite Hin1 in Hrun.
    exists b'. split; [exact Hrun|]. split; [exact Hin|].
    split; [lia|]. split.
    + intros [|i] q Hq.
      * injection Hq as <-. rewrite Nat.add_0_r.
        rewrite Holds by lia.
        exists t. rewrite Hnew. split; [|exact Ht].
        pose proof (byte_Z_range p) as Hp.
        rewrite Z.mod_small by lia. reflexivity.
      * destruct (Hnews i q Hq) as (t' & Hk & Ht'). exists t'.
        split; [|exact Ht'].
        rewrite <- Hk. f_equal. rewrite Hcount1. lia.
    + intros j Hj. rewrite Holds by lia.
      apply (Hold j). unfold key_at in *. lia.
Qed.

Lemma add_keys_register_in_order_witness :
  registry_ok (static_state (power_up []))
  /\ key_count (static_state (power_up []))
     + Z.of_nat (length ["005"; "007"]%byte) <= MAX_KEYS
  /\ exists b',
      State_run_commands (S (length ["005"; "007"]%byte + 0))
        (Board.with_serial_in
           (add_key_commands ["005"; "007"]%byte ++ [x0f; x00; x00] ++ [])
           (power_up []))
      = Ok true b'
      /\ serial_in b' = []
      /\ key_count (static_state b')
         = key_count (static_state (power_up []))
           + Z.of_nat (length ["005"; "007"]%byte)
      /\ (forall i p,
             ["005"; "007"]%byte !! i = Some p ->
             exists t,
               key_at (Z.to_nat (key_count (static_state (power_up []))) + i) b'
               = Some {| pin := byte_Z p; was_down := false;
                         debounce_timer := t |}
               /\ enabled t = false)
      /\ (forall j,
             (j < Z.to_nat (key_count (static_state (power_up []))))%nat ->
             key_at j b' = key_at j (power_up [])).
Proof.
  assert (Hok : registry_ok (static_state (power_up []))).
  { split; [reflexivity | unfold MAX_KEYS; cbn; lia]. }
  split; [exact Hok|].
  split; [vm_compute; discriminate|].
  apply (add_keys_register_in_order ["005"; "007"]%byte (power_up []) [] 0).
  - exact Hok.
  - vm_compute. discriminate.
Defined.

(* ===================================================================== *)
(** ** Commands that change a setting *)
(* ===================================================================== *)

Lemma be32_value b3 b2 b1 b0 :
  Z.lor (Z.lor (Z.lor (wrap32 (Z.shiftl (byte_Z b3) 24))
                      (wrap32 (Z.shiftl (byte_Z b2) 16)))
               (wrap32 (Z.shiftl (byte_Z b1) 8)))
        (byte_Z b0)
  = 2 ^ 24 * byte_Z b3 + 2 ^ 16 * byte_Z b2 + 2 ^ 8 * byte_Z b1 + byte_Z b0.
Proof.
  pose proof (byte_Z_range b3). pose proof (byte_Z_range b2).
  pose proof (byte_Z_range b1). pose proof (byte_Z_range b0).
  rewrite !wrap32_small by (rewrite Z.shiftl_mul_pow2 by lia; lia).
  rewrite <- !Z.lor_assoc.
  rewrite (lor_shiftl_add (byte_Z b1) (byte_Z b0) 8) by lia.
  rewrite (lor_shiftl_add (byte_Z b2) _ 16) by lia.
  rewrite (lor_shiftl_add (byte_Z b3) _ 24) by lia.
  lia.
Qed.

(** X10. SET_DEBOUNCE takes its four payload bytes as a big-endian
    number: the debounce time becomes
    [2^24 * b3 + 2^16 * b2 + 2^8 * b1 + b0], a 32-bit value; the registry
    and the two flags are as before and the command loop goes on after the
    payload. *)
Theorem set_debounce_is_big_endian
    (b : Board) (b3 b2 b1 b0 : byte) (tl : list byte) :
  exists b',
    State_run_command
      (Board.with_serial_in (xdb :: x00 :: x04 :: b3 :: b2 :: b1 :: b0 :: tl) b)
    = Ok (Some true) b'
    /\ debounce_micros (static_state b')
       = 2 ^ 24 * byte_Z b3 + 2 ^ 16 * byte_Z b2 + 2 ^ 8 * byte_Z b1
         + byte_Z b0
    /\ 0 <= debounce_micros (static_state b') < 2 ^ 32
    /\ keys (static_state b') = keys (static_state b)
    /\ key_count (static_state b') = key_count (static_state b)
    /\ await_smoothness (static_state b') = await_smoothness (static_state b)
    /\ enable_interrupts (static_state b')
       = enable_interrupts (static_state b)
    /\ serial_in b' = tl.
Proof.
  rewrite (State_run_command_header xdb x00 x04 (b3 :: b2 :: b1 :: b0 :: tl))
    by reflexivity.
  unfold mbind at 1, M_bind at 1.
  change (State_run_switch (byte_Z xdb) (declared_length x00 x04))
    with (c3 ← next_serial_byte;
          c2 ← next_serial_byte;
          c1 ← next_serial_byte;
          c0 ← next_serial_byte;
          lift (set_debounce
                  (Z.lor (Z.lor (Z.lor (wrap32 (Z.shiftl c3 24))
                                       (wrap32 (Z.shiftl c2 16)))
                                (wrap32 (Z.shiftl c1 8)))
                         c0));;
          mret (Some (true, 0))).
  unfold mbind, M_bind.
  rewrite (next_serial_byte_cons b3 (b2 :: b1 :: b0 :: tl)) by reflexivity.
  rewrite (next_serial_byte_cons b2 (b1 :: b0 :: tl)) by reflexivity.
  rewrite (next_serial_byte_cons b1 (b0 :: tl)) by reflexivity.
  rewrite (next_serial_byte_cons b0 tl) by reflexivity.
  rewrite lift_eq. cbn [mret M_ret read_excess Z.to_nat].
  eexists. split; [reflexivity|].
  cbn [snd set_debounce]. unfold set_debounce, mbind, St_bind.
  cbn [snd static_state serial_in modify_state serial Board.with_state
       Board.emit Board.with_serial_in State.with_debounce_micros
       debounce_micros keys key_count await_smoothness enable_interrupts].
  rewrite be32_value.
  pose proof (byte_Z_range b3). pose proof (byte_Z_range b2).
  pose proof (byte_Z_range b1). pose proof (byte_Z_range b0).
  repeat split; lia.
Qed.

(** X11. AWAIT_SMOOTHNESS takes one payload byte as a flag: the flag is
    on exactly when the byte is not zero. The command changes this one
    setting only and reads its header and that byte. *)
Theorem await_smoothness_tests_for_nonzero
    (b : Board) (v : byte) (tl : list byte) :
  exists b',
    State_run_command (Board.with_serial_in (xae :: x00 :: x01 :: v :: tl) b)
    = Ok (Some true) b'
    /\ static_state b'
       = State.with_await_smoothness (negb (byte_Z v =? 0)) (static_state b)
    /\ serial_in b' = tl.
Proof.
  rewrite (State_run_command_header xae x00 x01 (v :: tl)) by reflexivity.
  unfold mbind at 1, M_bind at 1.
  change (State_run_switch (byte_Z xae) (declared_length x00 x01))
    with (c ← next_serial_byte;
          lift (set_await_smoothness (negb (c =? 0)));;
          mret (Some (true, 0))).
  unfold mbind, M_bind.
  rewrite (next_serial_byte_cons v tl) by reflexivity.
  rewrite lift_eq. cbn [mret M_ret read_excess Z.to_nat].
  eexists. split; [reflexivity|].
  unfold set_await_smoothness, mbind, St_bind.
  destruct (negb (byte_Z v =? 0)); split; reflexivity.
Qed.

(* ===================================================================== *)
(** ** More on reading the magic number *)
(* ===================================================================== *)

Lemma byte_Z_inj c1 c2 : byte_Z c1 = byte_Z c2 -> c1 = c2.
Proof.
  unfold byte_Z. intros H. apply N2Z.inj in H.
  pose proof (Byte.of_to_N c1) as H1. pose proof (Byte.of_to_N c2) as H2.
  rewrite H in H1. congruence.
Qed.

Lemma magic_prefix_step (n : nat) (c : byte) :
  (n < 8)%nat ->
  byte_Z c = magic_at (Z.of_nat n) ->
  take (S n) MAGIC_NUMBER = take n MAGIC_NUMBER ++ [c].
Proof.
  intros Hn Hc. apply take_S_r.
  do 8 (destruct n as [|n];
        [apply byte_Z_inj in Hc; subst c; reflexivity|]).
  lia.
Qed.

(** The loop returns only right after the magic number; [garbage] then
    counts the bytes read before it. *)
Lemma State_run_resync_sound fuel :
  forall (n : nat) (garbage : Z) (b : Board) (garbage' : Z) (b' : Board),
    (n <= 8)%nat ->
    State_run_resync fuel (Z.of_nat n) garbage b = Ok garbage' b' ->
    exists mid pre,
      serial_in b = mid ++ serial_in b'
      /\ take n MAGIC_NUMBER ++ mid = pre ++ MAGIC_NUMBER
      /\ garbage' = garbage + Z.of_nat (length pre)
      /\ b' = Board.with_serial_in (serial_in b') b.
Proof.
  induction fuel as [|fuel IH]; intros n garbage b garbage' b' Hn;
    cbn [State_run_resync];
    destruct (Z.of_nat n <? 8) eqn:Hlt.
  - discriminate.
  - apply Z.ltb_ge in Hlt. assert (n = 8%nat) as -> by lia.
    intros [= <- <-]. exists [], []. cbn [app length Z.of_nat].
    rewrite Z.add_0_r. repeat split. destruct b; reflexivity.
  - apply Z.ltb_lt in Hlt.
    unfold mbind, M_bind, next_serial_byte.
    destruct (serial_in b) as [|c l] eqn:Hin; [discriminate|].
    destruct (byte_Z c =? magic_at (Z.of_nat n)) eqn:Hc; cbn [negb].
    + apply Z.eqb_eq in Hc. intros Hrun.
      replace (Z.of_nat n + 1) with (Z.of_nat (S n)) in Hrun by lia.
      destruct (IH (S n) garbage _ garbage' b' ltac:(lia) Hrun)
        as (mid & pre & Hmid & Hpre & Hcount & Hb').
      cbn [serial_in Board.with_serial_in] in Hmid.
      exists (c :: mid), pre. rewrite Hmid.
      split; [reflexivity|]. split; [|split; [exact Hcount|]].
      * rewrite <- Hpre, (magic_prefix_step n c) by (lia || exact Hc).
        rewrite <- app_assoc. reflexivity.
      * rewrite Hb' at 1. reflexivity.
    + intros Hrun.
      destruct (IH 0%nat _ _ garbage' b' ltac:(lia) Hrun)
        as (mid & pre & Hmid & Hpre & Hcount & Hb').
      cbn [serial_in Board.with_serial_in] in Hmid.
      change (take 0 MAGIC_NUMBER ++ mid) with mid in Hpre.
      exists (c :: mid), (take n MAGIC_NUMBER ++ c :: pre). rewrite Hmid.
      split; [reflexivity|]. split; [|split].
      * rewrite Hpre, <- app_assoc. reflexivity.
      * rewrite Hcount, length_app, length_take. cbn [length].
        change (length MAGIC_NUMBER) with 8%nat. lia.
      * rewrite Hb' at 1. reflexivity.
  - apply Z.ltb_ge in Hlt. assert (n = 8%nat) as -> by lia.
    intros [= <- <-]. exists [], []. cbn [app length Z.of_nat].
    rewrite Z.add_0_r. repeat split. destruct b; reflexivity.
Qed.

(** X12. The device starts to handle commands only right after the magic
    number. Whenever the loop that reads the magic number returns having
    read at most [INT_MAX] bytes and the eight of the magic number (the
    count, an [int], only grows, by the bytes read, so that it stays in
    range), the bytes it has read are some bytes followed by the magic
    number, the count it reports as garbage is the number of those bytes,
    which is at most [INT_MAX], and nothing on the board but the receive
    buffer has changed. *)
Theorem resync_returns_after_magic
    (fuel : nat) (b : Board) (garbage : Z) (b' : Board) :
  State_run_resync fuel 0 0 b = Ok garbage b' ->
  Z.of_nat (length (serial_in b)) - Z.of_nat (length (serial_in b'))
  <= INT_MAX + 8 ->
  exists pre,
    serial_in b = pre ++ MAGIC_NUMBER ++ serial_in b'
    /\ garbage = Z.of_nat (length pre)
    /\ 0 <= garbage <= INT_MAX
    /\ b' = Board.with_serial_in (serial_in b') b.
Proof.
  intros Hrun Hread.
  destruct (State_run_resync_sound fuel 0 0 b garbage b' ltac:(lia) Hrun)
    as (mid & pre & Hmid & Hpre & Hcount & Hb').
  change (take 0 MAGIC_NUMBER ++ mid) with mid in Hpre. exists pre.
  assert (Hin : serial_in b = pre ++ MAGIC_NUMBER ++ serial_in b').
  { rewrite Hmid, Hpre, <- app_assoc. reflexivity. }
  split; [exact Hin|]. split; [exact Hcount|]. split; [|exact Hb'].
  rewrite Hin, !length_app in Hread.
  change (length MAGIC_NUMBER) with 8%nat in Hread. lia.
Qed.

Lemma resync_returns_after_magic_witness :
  State_run_resync 20 0 0 (power_up ("S" :: "x" :: MAGIC_NUMBER ++ ["!"])%byte)
  = Ok 2 (power_up ["!"]%byte)
  /\ Z.of_nat (length (serial_in
                         (power_up ("S" :: "x" :: MAGIC_NUMBER ++ ["!"])%byte)))
     - Z.of_nat (length (serial_in (power_up ["!"]%byte)))
     <= INT_MAX + 8
  /\ exists pre,
      serial_in (power_up ("S" :: "x" :: MAGIC_NUMBER ++ ["!"])%byte)
      = pre ++ MAGIC_NUMBER ++ serial_in (power_up ["!"]%byte)
      /\ 2 = Z.of_nat (length pre)
      /\ 0 <= 2 <= INT_MAX
      /\ power_up ["!"]%byte
         = Board.with_serial_in (serial_in (power_up ["!"]%byte))
             (power_up ("S" :: "x" :: MAGIC_NUMBER ++ ["!"])%byte).
Proof.
  split; [vm_compute; reflexivity|].
  split; [vm_compute; discriminate|].
  apply (resync_returns_after_magic 20
           (power_up ("S" :: "x" :: MAGIC_NUMBER ++ ["!"])%byte) 2
           (power_up ["!"]%byte)).
  - vm_compute. reflexivity.
  - vm_compute. discriminate.
Defined.

Lemma State_run_handshake_skips
    (garbage rest : list byte) (fuel : nat) (b : Board) :
  Forall (fun c => c <> "S"%byte) garbage ->
  State_run_handshake (length garbage + (9 + fuel))
    (Board.with_serial_in (garbage ++ MAGIC_NUMBER ++ rest) b)
  = Ok (Z.of_nat (length garbage))
       (Board.with_state (State.init (static_state b))
          (Board.with_serial_in rest b)).
Proof.
  intros Hfree. unfold State_run_handshake, mbind, M_bind.
  rewrite lift_eq.
  cbn [fst snd modify_state].
  change (Board.with_state
            (State.init
               (static_state
                  (Board.with_serial_in (garbage ++ MAGIC_NUMBER ++ rest) b)))
            (Board.with_serial_in (garbage ++ MAGIC_NUMBER ++ rest) b))
    with (Board.with_serial_in (garbage ++ MAGIC_NUMBER ++ rest)
            (Board.with_state (State.init (static_state b)) b)).
  rewrite State_run_resync_skips by exact Hfree.
  reflexivity.
Qed.


(** X13. Garbage that holds no byte ["S"] is skipped and counted. For
    such garbage of at most [INT_MAX] bytes (the count is an [int]) in
    front of the magic number, [State_run] resets the settings, reads the
    garbage and the magic number and nothing more, and finds the length of
    the garbage as its count. *)
Theorem handshake_skips_garbage_without_S
    (garbage rest : list byte) (fuel : nat) (b : Board) :
  Forall (fun c => c <> "S"%byte) garbage ->
  Z.of_nat (length garbage) <= INT_MAX ->
  State_run_handshake (length garbage + (9 + fuel))
    (Board.with_serial_in (garbage ++ MAGIC_NUMBER ++ rest) b)
  = Ok (Z.of_nat (length garbage))
       (Board.with_state (State.init (static_state b))
          (Board.with_serial_in rest b)).
Proof.
  intros Hfree _.
  rewrite (State_run_handshake_skips garbage rest fuel b Hfree).
  reflexivity.
Qed.

Lemma handshake_skips_garbage_without_S_witness :
  Forall (fun c => c <> "S"%byte) ["e"; "r"; "K"]%byte
  /\ Z.of_nat (length ["e"; "r"; "K"]%byte) <= INT_MAX
  /\ State_run_handshake (length ["e"; "r"; "K"]%byte + (9 + 0))
       (Board.with_serial_in (["e"; "r"; "K"]%byte ++ MAGIC_NUMBER ++ [])
                             (power_up []))
     = Ok (Z.of_nat (length ["e"; "r"; "K"]%byte))
          (Board.with_state (State.init (static_state (power_up [])))
             (Board.with_serial_in [] (power_up []))).
Proof.
  assert (Hfree : Forall (fun c => c <> "S"%byte) ["e"; "r"; "K"]%byte).
  { repeat constructor; discriminate. }
  split; [exact Hfree|].
  split; [vm_compute; discriminate|].
  apply (handshake_skips_garbage_without_S ["e"; "r"; "K"]%byte [] 0
           (power_up [])).
  - exact Hfree.
  - vm_compute. discriminate.
Defined.

(* ===================================================================== *)
(** ** Opening and releasing the pins *)
(* ===================================================================== *)

Lemma for_loop_snoc n :
  forall i body b,
    for_loop (S n) i body b
    = (for_loop n i body;; body (i + Z.of_nat n)) b.
Proof.
  induction n as [|n IH]; intros i body b.
  - cbn [for_loop]. unfold mbind, St_bind, mret, St_ret.
    replace (i + Z.of_nat 0) with i by lia.
    destruct (body i b) as [[] b1]. reflexivity.
  - change (for_loop (S (S n)) i body b)
      with ((body i;; for_loop (S n) (i + 1) body) b).
    change (for_loop (S n) i body)
      with (body i;; for_loop n (i + 1) body).
    unfold mbind, St_bind.
    destruct (body i b) as [[] b1].
    rewrite IH. unfold mbind, St_bind.
    destruct (for_loop n (i + 1) body b1) as [[] b2].
    replace (i + 1 + Z.of_nat n) with (i + Z.of_nat (S n)) by lia.
    reflexivity.
Qed.

Lemma existsb_pin (k : Key) (ks : list Key) :
  existsb (fun k' => pin k' =? pin k) ks = true <-> pin k ∈ pin <$> ks.
Proof.
  rewrite existsb_exists, list_elem_of_fmap. split.
  - intros (k' & Hin & Heq). apply Z.eqb_eq in Heq.
    exists k'. split; [congruence | apply list_elem_of_In; exact Hin].
  - intros (k' & Heq & Hin). exists k'.
    split; [apply list_elem_of_In; exact Hin | apply Z.eqb_eq; congruence].
Qed.

Lemma opened_pins_elem (ks : list Key) (n : nat) :
  (n <= length ks)%nat ->
  forall p, p ∈ opened_pins n ks <-> p ∈ pin <$> take n ks.
Proof.
  induction n as [|n IH]; intros Hn p.
  - cbn. reflexivity.
  - destruct (lookup_lt_is_Some_2 ks n ltac:(lia)) as [k Hk].
    cbn [opened_pins]. rewrite Hk, (take_S_r ks n k Hk), fmap_app.
    rewrite !elem_of_app, IH by lia. cbn [fmap list_fmap].
    rewrite list_elem_of_singleton.
    destruct (existsb (fun k' => pin k' =? pin k) (take n ks)) eqn:Hseen.
    + apply existsb_pin in Hseen. rewrite elem_of_nil.
      split; [tauto|]. intros [H | ->]; auto.
    + rewrite list_elem_of_singleton. reflexivity.
Qed.

Lemma opened_pins_NoDup (ks : list Key) (n : nat) :
  (n <= length ks)%nat -> NoDup (opened_pins n ks).
Proof.
  induction n as [|n IH]; intros Hn.
  - constructor.
  - destruct (lookup_lt_is_Some_2 ks n ltac:(lia)) as [k Hk].
    cbn [opened_pins]. rewrite Hk.
    destruct (existsb (fun k' => pin k' =? pin k) (take n ks)) eqn:Hseen.
    + rewrite app_nil_r. apply IH. lia.
    + apply NoDup_app. split; [apply IH; lia|]. split; [|apply NoDup_singleton].
      intros p Hp Hp'. apply list_elem_of_singleton in Hp'. subst p.
      apply opened_pins_elem in Hp; [|lia].
      apply existsb_pin in Hp. congruence.
Qed.

(** The loop that opens the pins, for the first [n] keys. *)
Lemma open_pins_loop n :
  forall b,
    let b' := snd (for_loop n 0 State_run_open_pin b) in
    static_state b' = static_state b
    /\ serial_in b' = serial_in b
    /\ pin_ops b'
       = pin_ops b
         ++ flat_map (open_calls (enable_interrupts (static_state b)))
                     (opened_pins n (keys (static_state b))).
Proof.
  induction n as [|n IH]; intros b.
  - cbn. rewrite app_nil_r. auto.
  - cbv zeta. rewrite for_loop_snoc. unfold mbind, St_bind.
    specialize (IH b). cbv zeta in IH.
    destruct (for_loop n 0 State_run_open_pin b) as [[] b1].
    cbn [snd] in *. destruct IH as (Hs & Hin & Hops).
    cbn [opened_pins]. rewrite flat_map_app, app_assoc, <- Hops.
    rewrite Z.add_0_l.
    unfold State_run_open_pin, mbind, St_bind, get_state.
    rewrite Nat2Z.id, Hs.
    destruct (keys (static_state b) !! n) as [k|]; cbn [snd];
      [|rewrite app_nil_r; auto].
    destruct (existsb (fun k' => pin k' =? pin k)
                (take n (keys (static_state b)))); cbn [negb snd];
      [rewrite app_nil_r; auto|].
    unfold open_calls.
    destruct (enable_interrupts (static_state b)); cbn;
      rewrite <- ?app_assoc; auto.
Qed.

(** The loop that releases the pins, for the first [n] keys. *)
Lemma cleanup_loop n :
  forall b,
    (n <= length (keys (static_state b)))%nat ->
    let b' := snd (for_loop n 0 State_run_cleanup_pin b) in
    static_state b' = static_state b
    /\ serial_in b' = serial_in b
    /\ serial_out b' = serial_out b
    /\ pin_ops b'
       = pin_ops b ++ flat_map release_calls (take n (keys (static_state b))).
Proof.
  induction n as [|n IH]; intros b Hn.
  - cbn. rewrite app_nil_r. auto.
  - cbv zeta. rewrite for_loop_snoc. unfold mbind, St_bind.
    specialize (IH b ltac:(lia)). cbv zeta in IH.
    destruct (for_loop n 0 State_run_cleanup_pin b) as [[] b1].
    cbn [snd] in *. destruct IH as (Hs & Hin & Hout & Hops).
    destruct (lookup_lt_is_Some_2 (keys (static_state b)) n ltac:(lia))
      as [k Hk].
    rewrite (take_S_r _ n k Hk), flat_map_app, app_assoc, <- Hops.
    rewrite Z.add_0_l.
    unfold State_run_cleanup_pin, mbind, St_bind, get_state.
    rewrite Nat2Z.id, Hs, Hk. cbn.
    rewrite <- app_assoc. auto.
Qed.

Lemma State_run_open_pins_ops b :
  pin_ops (snd (State_run_open_pins b))
  = pin_ops b
    ++ flat_map (open_calls (enable_interrupts (static_state b)))
         (opened_pins (Z.to_nat (key_count (static_state b)))
                      (keys (static_state b)))
  /\ static_state (snd (State_run_open_pins b)) = static_state b
  /\ serial_in (snd (State_run_open_pins b)) = serial_in b.
Proof.
  set (n := Z.to_nat (key_count (static_state b))).
  destruct (open_pins_loop n b) as (Hs & Hin & Hops).
  assert (Hrun : State_run_open_pins b
                 = (tt, emit_all
                          [Println "finished setting up, handling input";
                           PrintlnEmpty]
                          (snd (for_loop n 0 State_run_open_pin b)))).
  { unfold State_run_open_pins, mbind, St_bind, get_state. fold n.
    destruct (for_loop n 0 State_run_open_pin b) as [[] b1]. reflexivity. }
  rewrite Hrun. cbn [snd].
  destruct (emit_all_fields
              [Println "finished setting up, handling input"; PrintlnEmpty]
              (snd (for_loop n 0 State_run_open_pin b)))
    as (E1 & _ & _ & _ & E5 & _ & E7).
  rewrite E1, E5, E7. auto.
Qed.

Lemma State_run_cleanup_ops b :
  (Z.to_nat (key_count (static_state b)) <= length (keys (static_state b)))%nat ->
  pin_ops (snd (State_run_cleanup b))
  = pin_ops b
    ++ flat_map release_calls
         (take (Z.to_nat (key_count (static_state b))) (keys (static_state b)))
  /\ static_state (snd (State_run_cleanup b)) = static_state b
  /\ serial_in (snd (State_run_cleanup b)) = serial_in b
  /\ serial_out (snd (State_run_cleanup b)) = serial_out b.
Proof.
  intros Hbound.
  destruct (cleanup_loop (Z.to_nat (key_count (static_state b))) b Hbound)
    as (Hs & Hin & Hout & Hops).
  unfold State_run_cleanup, mbind, St_bind, get_state.
  auto.
Qed.

(** X14. Opening the pins. With the registry inside its array, the loop
    that follows the command loop configures every pin that a registered
    key uses, each of them once however many keys share it: one
    [pinMode(pin, INPUT_PULLUP)], followed by [attachInterrupt] when
    interrupts are enabled. It changes neither the state nor the receive
    buffer. *)
Theorem open_pins_once_per_pin (b : Board) :
  (Z.to_nat (key_count (static_state b)) <= length (keys (static_state b)))%nat ->
  exists pins,
    pin_ops (snd (State_run_open_pins b))
    = pin_ops b
      ++ flat_map (open_calls (enable_interrupts (static_state b))) pins
    /\ NoDup pins
    /\ (forall p,
           p ∈ pins
           <-> exists i k,
               (i < Z.to_nat (key_count (static_state b)))%nat
               /\ key_at i b = Some k /\ pin k = p)
    /\ static_state (snd (State_run_open_pins b)) = static_state b
    /\ serial_in (snd (State_run_open_pins b)) = serial_in b.
Proof.
  intros Hbound.
  destruct (State_run_open_pins_ops b) as (Hops & Hs & Hin).
  exists (opened_pins (Z.to_nat (key_count (static_state b)))
                      (keys (static_state b))).
  split; [exact Hops|].
  split; [apply opened_pins_NoDup; exact Hbound|].
  split; [|split; assumption].
  intros p. rewrite opened_pins_elem by exact Hbound.
  rewrite list_elem_of_fmap. split.
  - intros (k & Hp & Hk). apply list_elem_of_lookup in Hk as [i Hi].
    apply lookup_take_Some in Hi as [Hi Hlt].
    exists i, k. auto.
  - intros (i & k & Hlt & Hi & Hp). exists k. split; [congruence|].
    apply (list_elem_of_lookup_2 _ i). rewrite lookup_take_lt by exact Hlt.
    exact Hi.
Qed.

Lemma open_pins_once_per_pin_witness :
  (Z.to_nat (key_count (static_state shared_pin_board))
   <= length (keys (static_state shared_pin_board)))%nat
  /\ exists pins,
      pin_ops (snd (State_run_open_pins shared_pin_board))
      = pin_ops shared_pin_board
        ++ flat_map
             (open_calls (enable_interrupts (static_state shared_pin_board)))
             pins
      /\ NoDup pins
      /\ (forall p,
             p ∈ pins
             <-> exists i k,
                 (i < Z.to_nat (key_count (static_state shared_pin_board)))%nat
                 /\ key_at i shared_pin_board = Some k /\ pin k = p)
      /\ static_state (snd (State_run_open_pins shared_pin_board))
         = static_state shared_pin_board
      /\ serial_in (snd (State_run_open_pins shared_pin_board))
         = serial_in shared_pin_board.
Proof.
  split; [vm_compute; lia|].
  apply (open_pins_once_per_pin shared_pin_board).
  vm_compute. lia.
Defined.

(** X15. Cleanup. With the registry inside its array, the loop that ends
    a session releases the pin of every registered key in turn, a shared
    pin once per key that uses it: [pinMode(pin, INPUT)] and
    [detachInterrupt], whether or not an interrupt was attached. It
    changes nothing else. *)
Theorem cleanup_releases_every_key (b : Board) :
  (Z.to_nat (key_count (static_state b)) <= length (keys (static_state b)))%nat ->
  pin_ops (snd (State_run_cleanup b))
  = pin_ops b
    ++ flat_map release_calls
         (take (Z.to_nat (key_count (static_state b))) (keys (static_state b)))
  /\ static_state (snd (State_run_cleanup b)) = static_state b
  /\ serial_in (snd (State_run_cleanup b)) = serial_in b
  /\ serial_out (snd (State_run_cleanup b)) = serial_out b.
Proof.
  intros Hbound.
  destruct (State_run_cleanup_ops b Hbound) as (Hops & Hstate & Hin & Hout).
  repeat split; assumption.
Qed.

Lemma cleanup_releases_every_key_witness :
  (Z.to_nat (key_count (static_state shared_pin_board))
   <= length (keys (static_state shared_pin_board)))%nat
  /\ pin_ops (snd (State_run_cleanup shared_pin_board))
     = pin_ops shared_pin_board
       ++ flat_map release_calls
            (take (Z.to_nat (key_count (static_state shared_pin_board)))
                  (keys (static_state shared_pin_board)))
  /\ static_state (snd (State_run_cleanup shared_pin_board))
     = static_state shared_pin_board
  /\ serial_in (snd (State_run_cleanup shared_pin_board))
     = serial_in shared_pin_board
  /\ serial_out (snd (State_run_cleanup shared_pin_board))
     = serial_out shared_pin_board.
Proof.
  split; [vm_compute; lia|].
  apply (cleanup_releases_every_key shared_pin_board).
  vm_compute. lia.
Defined.

(** X16. A payload that has not arrived in full. When fewer bytes are in
    the receive buffer than the loop that reads the excess payload has to
    read, the loop reads them all and then waits for the host; it does not
    give up and changes nothing else. *)
Theorem read_excess_waits_for_host (n : nat) (b : Board) :
  (length (serial_in b) < n)%nat ->
  read_excess n b = Blocked (Board.with_serial_in [] b).
Proof.
  revert b. induction n as [|n IH]; intros b Hshort; [lia|].
  cbn [read_excess]. unfold mbind, M_bind, next_serial_byte.
  destruct (serial_in b) as [|c l] eqn:Hin.
  - f_equal. destruct b. cbn in Hin. subst. reflexivity.
  - rewrite IH by (cbn in *; lia). reflexivity.
Qed.

Lemma read_excess_waits_for_host_witness :
  (length (serial_in (power_up ["a"; "b"]%byte)) < 5)%nat
  /\ read_excess 5 (power_up ["a"; "b"]%byte)
     = Blocked (Board.with_serial_in [] (power_up ["a"; "b"]%byte)).
Proof.
  split; [vm_compute; lia|].
  apply (read_excess_waits_for_host 5 (power_up ["a"; "b"]%byte)).
  vm_compute. lia.
Defined.

(* ===================================================================== *)
(** ** What the setup never does *)
(* ===================================================================== *)

#[export] Instance setup_frame_preorder : PreOrder setup_frame.
Proof.
  split.
  - intros b. unfold setup_frame. auto.
  - intros b1 b2 b3 (A1 & A2 & A3 & A4 & A5) (B1 & B2 & B3 & B4 & B5).
    unfold setup_frame. repeat split; congruence.
Qed.

Lemma setup_modify_state f : keeps setup_frame (modify_state f).
Proof. intros b. unfold setup_frame. auto. Qed.

Lemma setup_modify_key i f : keeps setup_frame (modify_key i f).
Proof. intros b. unfold setup_frame. auto. Qed.

Lemma setup_get_static_runs : keeps setup_frame get_static_runs.
Proof. intros b. unfold setup_frame. auto. Qed.

Lemma setup_serial o :
  event_bytes [o] = [] -> keeps setup_frame (serial o).
Proof.
  intros Hquiet b. unfold setup_frame, events. cbn.
  rewrite flat_map_app.
  change (flat_map _ [o]) with (event_bytes [o]).
  rewrite Hquiet, app_nil_r. auto.
Qed.

Lemma setup_with_serial_in l b : setup_frame b (Board.with_serial_in l b).
Proof. unfold setup_frame. auto. Qed.

#[export] Hint Resolve setup_modify_state setup_modify_key
  setup_get_static_runs setup_with_serial_in : frame.
#[export] Hint Extern 1 (keeps setup_frame (serial _)) =>
  apply setup_serial; reflexivity : frame.

Lemma setup_read_excess n : keepsM setup_frame (read_excess n).
Proof.
  induction n as [|n IH]; cbn [read_excess]; keepsM_tac. exact IH.
Qed.

Lemma setup_resync fuel :
  forall magic_idx garbage,
    keepsM setup_frame (State_run_resync fuel magic_idx garbage).
Proof.
  induction fuel as [|fuel IH]; intros magic_idx garbage;
    cbn [State_run_resync]; keepsM_tac; apply IH.
Qed.

Lemma setup_command : keepsM setup_frame State_run_command.
Proof.
  unfold State_run_command, State_run_switch, Key_setup, set_debounce,
    set_await_smoothness, set_enable_interrupts.
  keepsM_tac; apply setup_read_excess.
Qed.

Lemma setup_commands fuel : keepsM setup_frame (State_run_commands fuel).
Proof.
  induction fuel as [|fuel IH]; cbn [State_run_commands]; keepsM_tac;
    first [apply setup_command | exact IH].
Qed.

(** X17. Until the command loop has ended the device leaves the hardware
    alone: whatever the host sends, handshake and configuration read
    neither a pin nor the clock, configure no pin, and send no event
    byte (only the echoed magic number and log text). *)
Theorem setup_leaves_hardware_alone (fuel : nat) (b : Board) :
  pin_ops (final_board (State_run_setup fuel b)) = pin_ops b
  /\ observations (final_board (State_run_setup fuel b)) = observations b
  /\ min_tick_time (final_board (State_run_setup fuel b)) = min_tick_time b
  /\ static_runs (final_board (State_run_setup fuel b)) = static_runs b
  /\ events (final_board (State_run_setup fuel b)) = events b.
Proof.
  assert (Hsetup : keepsM setup_frame (State_run_setup fuel)).
  { unfold State_run_setup, State_run_handshake, State_run_hello.
    keepsM_tac; first [apply setup_resync | apply setup_commands]. }
  exact (Hsetup b).
Qed.

(* ===================================================================== *)
(** ** From opening the pins to releasing them *)
(* ===================================================================== *)

#[export] Instance same_pins_preorder : PreOrder same_pins.
Proof.
  split.
  - intros b. unfold same_pins. auto.
  - intros b1 b2 b3 [A1 A2] [B1 B2]. unfold same_pins. split; congruence.
Qed.

Lemma fmap_pin_alter (f : Key -> Key) (i : nat) (l : list Key) :
  (forall k, pin (f k) = pin k) -> pin <$> alter f i l = pin <$> l.
Proof.
  intros Hf. revert i.
  induction l as [|k l IH]; intros [|i]; cbn; try reflexivity.
  - rewrite Hf. reflexivity.
  - f_equal. apply IH.
Qed.

Lemma pins_same_state b b' :
  static_state b' = static_state b -> same_pins b b'.
Proof. intros E. unfold same_pins. rewrite E. auto. Qed.

Lemma pins_micros hw : keeps same_pins (micros hw).
Proof. intros b. apply pins_same_state. reflexivity. Qed.

Lemma pins_digitalRead hw p : keeps same_pins (digitalRead_is_LOW hw p).
Proof. intros b. apply pins_same_state. reflexivity. Qed.

Lemma pins_put_min_tick_time t : keeps same_pins (put_min_tick_time t).
Proof. intros b. apply pins_same_state. reflexivity. Qed.

Lemma pins_serial o : keeps same_pins (serial o).
Proof. intros b. apply pins_same_state. reflexivity. Qed.

Lemma pins_Serial_read : keeps same_pins Serial_read.
Proof.
  intros b. apply pins_same_state. unfold Serial_read.
  destruct (serial_in b); reflexivity.
Qed.

Lemma pins_modify_key i f :
  (forall k, pin (f k) = pin k) -> keeps same_pins (modify_key i f).
Proof.
  intros Hf b. split; cbn; [apply fmap_pin_alter, Hf | reflexivity].
Qed.

#[export] Hint Resolve pins_micros pins_digitalRead pins_put_min_tick_time
  pins_serial pins_Serial_read : frame.
#[export] Hint Extern 1 (keeps same_pins (modify_key _ _)) =>
  apply pins_modify_key; intros; reflexivity : frame.

Lemma pins_Key_tick hw : keeps same_pins (Key_tick hw).
Proof.
  unfold Key_tick. keeps_tac.
  unfold Key_tick_key, check_now. keeps_tac.
Qed.

Lemma pins_polls hw n : forall b, same_pins b (polls hw n b).
Proof.
  induction n as [|n IH]; intros b; cbn [polls]; [reflexivity|].
  etransitivity; [|apply IH].
  assert (Hpoll : keeps same_pins (State_run_poll hw)).
  { unfold State_run_poll. keeps_tac. apply pins_Key_tick. }
  apply Hpoll.
Qed.

Lemma polls_pin_ops hw n : forall b, pin_ops (polls hw n b) = pin_ops b.
Proof.
  induction n as [|n IH]; intros b; cbn [polls]; [reflexivity|].
  rewrite IH, State_run_poll_eq.
  pose proof (sf_pin_ops _ _ (Key_tick_frame hw b)) as Hk.
  destruct (serial_in b); exact Hk.
Qed.

(** X18. Every pin the session opens is released when it ends. With the
    registry inside its array: whatever happens during any number of
    iterations of the input loop, the cleanup that follows calls
    [pinMode(pin, INPUT)] and [detachInterrupt] for every pin that was set
    up when the input loop started. *)
Theorem cleanup_releases_opened_pins
    (hw : Hardware) (n : nat) (b : Board) :
  (Z.to_nat (key_count (static_state b)) <= length (keys (static_state b)))%nat ->
  exists opened released,
    pin_ops (snd (State_run_open_pins b)) = pin_ops b ++ opened
    /\ pin_ops (polls hw n (snd (State_run_open_pins b)))
       = pin_ops b ++ opened
    /\ pin_ops (snd (State_run_cleanup
                       (polls hw n (snd (State_run_open_pins b)))))
       = pin_ops b ++ opened ++ released
    /\ (forall p, In (PinModeInputPullup p) opened ->
                  In (PinModeInput p) released
                  /\ In (DetachInterrupt p) released)
    /\ (forall p, In (AttachInterrupt p) opened ->
                  In (DetachInterrupt p) released).
Proof.
  intros Hbound.
  destruct (State_run_open_pins_ops b) as (Hops & Hs & _).
  set (b1 := snd (State_run_open_pins b)) in *.
  set (b2 := polls hw n b1).
  destruct (pins_polls hw n b1) as [Hpins Hcount]. fold b2 in Hpins, Hcount.
  rewrite Hs in Hpins, Hcount.
  assert (Hops2 : pin_ops b2 = pin_ops b1) by apply polls_pin_ops.
  assert (Hlen2 : length (keys (static_state b2))
                  = length (keys (static_state b))).
  { rewrite <- (length_fmap pin (keys (static_state b2))), Hpins.
    apply length_fmap. }
  destruct (State_run_cleanup_ops b2) as (Hrel & _).
  { rewrite Hcount, Hlen2. exact Hbound. }
  rewrite Hcount in Hrel.
  set (m := Z.to_nat (key_count (static_state b))) in *.
  assert (Hused : forall p,
             In p (opened_pins m (keys (static_state b))) ->
             exists k, In k (take m (keys (static_state b2))) /\ pin k = p).
  { intros p Hp. apply list_elem_of_In in Hp.
    apply opened_pins_elem in Hp; [|exact Hbound].
    rewrite fmap_take, <- Hpins, <- fmap_take in Hp.
    apply list_elem_of_fmap in Hp as (k & -> & Hk).
    exists k. split; [apply list_elem_of_In; exact Hk | reflexivity]. }
  exists (flat_map (open_calls (enable_interrupts (static_state b)))
                   (opened_pins m (keys (static_state b)))),
         (flat_map release_calls (take m (keys (static_state b2)))).
  split; [exact Hops|].
  split; [rewrite Hops2; exact Hops|].
  split; [rewrite Hrel, Hops2, Hops, <- app_assoc; reflexivity|].
  split.
  - intros p Hp. apply in_flat_map in Hp as (q & Hq & Hcall).
    assert (q = p) as ->.
    { unfold open_calls in Hcall.
      destruct (enable_interrupts (static_state b)); cbn in Hcall;
        intuition congruence. }
    destruct (Hused p Hq) as (k & Hk & <-).
    split; apply in_flat_map; exists k; (split; [exact Hk|]); cbn; auto.
  - intros p Hp. apply in_flat_map in Hp as (q & Hq & Hcall).
    assert (q = p) as ->.
    { unfold open_calls in Hcall.
      destruct (enable_interrupts (static_state b)); cbn in Hcall;
        intuition congruence. }
    destruct (Hused p Hq) as (k & Hk & <-).
    apply in_flat_map. exists k. split; [exact Hk|]. cbn. auto.
Qed.

Lemma cleanup_releases_opened_pins_witness :
  (Z.to_nat (key_count (static_state shared_pin_board))
   <= length (keys (static_state shared_pin_board)))%nat
  /\ exists opened released,
      pin_ops (snd (State_run_open_pins shared_pin_board))
      = pin_ops shared_pin_board ++ opened
      /\ pin_ops (polls held_hw 3 (snd (State_run_open_pins shared_pin_board)))
         = pin_ops shared_pin_board ++ opened
      /\ pin_ops (snd (State_run_cleanup
                         (polls held_hw 3
                            (snd (State_run_open_pins shared_pin_board)))))
         = pin_ops shared_pin_board ++ opened ++ released
      /\ (forall p, In (PinModeInputPullup p) opened ->
                    In (PinModeInput p) released
                    /\ In (DetachInterrupt p) released)
      /\ (forall p, In (AttachInterrupt p) opened ->
                    In (DetachInterrupt p) released).
Proof.
  split; [vm_compute; lia|].
  apply (cleanup_releases_opened_pins held_hw 3 shared_pin_board).
  vm_compute. lia.
Defined.

(* ===================================================================== *)
(** ** How a session ends *)
(* ===================================================================== *)

Lemma input_get_static_runs : keeps same_input get_static_runs.
Proof. intros b. reflexivity. Qed.

#[export] Hint Resolve input_get_static_runs : frame.

#[export] Instance reads_preorder : PreOrder reads.
Proof.
  split.
  - intros b. exists []. reflexivity.
  - intros b1 b2 b3 [pre1 H1] [pre2 H2]. exists (pre1 ++ pre2).
    rewrite H1, H2, app_assoc. reflexivity.
Qed.

Lemma keeps_same_input_reads {A} (m : St A) :
  keeps same_input m -> keeps reads m.
Proof. intros Hm b. exists []. symmetry. apply Hm. Qed.

Lemma reads_next_serial_byte : keepsM reads next_serial_byte.
Proof.
  intros b. unfold next_serial_byte.
  destruct (serial_in b) as [|c l] eqn:Hin; [reflexivity|].
  exists [c]. exact Hin.
Qed.

#[export] Hint Resolve reads_next_serial_byte : frame.
#[export] Hint Extern 2 (keeps reads _) =>
  apply keeps_same_input_reads; solve [keeps_tac] : frame.











Lemma State_run_hello_eq garbage b :
  State_run_hello garbage b
  = (tt,
     emit_all [WriteStr "SerKey01"; Print "read "; PrintNum garbage;
               Println " bytes of garbage before magic number";
               Print "run #"; PrintNum (static_runs b);
               Println " since last reset";
               Println "handling setup commands"] b).
Proof. reflexivity. Qed.

Lemma State_run_command_blocked b :
  serial_in b = [] -> State_run_command b = Blocked b.
Proof.
  intros Hin. unfold State_run_command, mbind, M_bind, next_serial_byte.
  rewrite Hin. reflexivity.
Qed.

(** X20. The answer to the magic number. After garbage that holds no byte
    ["S"], of at most [INT_MAX] bytes (the count is an [int]), and the
    magic number, with nothing more sent, the device has echoed the magic
    number, logged the count of garbage bytes and the run number, and
    waits for the first command with the default settings. *)
Theorem handshake_is_answered
    (garbage : list byte) (fuel : nat) (b : Board) :
  Forall (fun c => c <> "S"%byte) garbage ->
  Z.of_nat (length garbage) <= INT_MAX ->
  exists b',
    State_run_setup (length garbage + (9 + fuel))
      (Board.with_serial_in (garbage ++ MAGIC_NUMBER ++ []) b)
    = Blocked b'
    /\ serial_in b' = []
    /\ static_state b' = State.init (static_state b)
    /\ serial_out b'
       = serial_out b
         ++ [WriteStr "SerKey01"; Print "read ";
             PrintNum (Z.of_nat (length garbage));
             Println " bytes of garbage before magic number";
             Print "run #"; PrintNum (static_runs b);
             Println " since last reset";
             Println "handling setup commands"].
Proof.
  intros Hfree _.
  unfold State_run_setup. unfold mbind at 1, M_bind at 1.
  rewrite State_run_handshake_skips by exact Hfree.
  unfold mbind at 1, M_bind at 1. rewrite lift_eq, State_run_hello_eq.
  cbn [snd].
  match goal with
  | |- context [emit_all ?log ?b0] =>
    destruct (emit_all_fields log b0) as (E1 & _ & _ & _ & E5 & E6 & _);
    set (b1 := emit_all log b0) in *
  end.
  replace (length garbage + (9 + fuel))%nat
    with (S (length garbage + (8 + fuel))) by lia.
  cbn [State_run_commands]. unfold mbind, M_bind.
  rewrite (State_run_command_blocked b1) by exact E5.
  exists b1. rewrite E1, E5, E6. auto.
Qed.

Lemma handshake_is_answered_witness :
  Forall (fun c => c <> "S"%byte) ["e"; "r"; "K"]%byte
  /\ Z.of_nat (length ["e"; "r"; "K"]%byte) <= INT_MAX
  /\ exists b',
      State_run_setup (length ["e"; "r"; "K"]%byte + (9 + 0))
        (Board.with_serial_in (["e"; "r"; "K"]%byte ++ MAGIC_NUMBER ++ [])
                              (power_up []))
      = Blocked b'
      /\ serial_in b' = []
      /\ static_state b' = State.init (static_state (power_up []))
      /\ serial_out b'
         = serial_out (power_up [])
           ++ [WriteStr "SerKey01"; Print "read ";
               PrintNum (Z.of_nat (length ["e"; "r"; "K"]%byte));
               Println " bytes of garbage before magic number";
               Print "run #"; PrintNum (static_runs (power_up []));
               Println " since last reset";
               Println "handling setup commands"].
Proof.
  assert (Hfree : Forall (fun c => c <> "S"%byte) ["e"; "r"; "K"]%byte).
  { repeat constructor; discriminate. }
  split; [exact Hfree|].
  split; [vm_compute; discriminate|].
  apply (handshake_is_answered ["e"; "r"; "K"]%byte 0 (power_up [])).
  - exact Hfree.
  - vm_compute. discriminate.
Defined.

(* ===================================================================== *)
(** ** Re-arming the timer *)
(* ===================================================================== *)

(** X21. What the scan leaves in the timer of a key whose raw state
    differs from the reported one. The timer is armed for the clock
    reading taken after the check plus the debounce time, modulo [2^32],
    when the event byte was sent, and also when it was held back with
    [await_smoothness] on. When it was held back with [await_smoothness]
    off the timer is left switched off. *)
Theorem Key_tick_key_rearms_timer
    (hw : Hardware) (i : Z) (b : Board) (key : Key) :
  keys (static_state b) !! Z.to_nat i = Some key ->
  was_down key <> hw_low hw (observations b) (pin key) ->
  debounce_timer <$> key_at (Z.to_nat i) (snd (Key_tick_key hw i b))
  = Some
      (if await_smoothness (static_state b)
          || negb (fst (Timer.check (clock hw (Board.observe b))
                                    (debounce_timer key)))
       then {| timeout :=
                 wrap32 (clock hw (Board.observe (Board.observe b))
                         + debounce_micros (static_state b));
               enabled := true |}
       else {| timeout := timeout (debounce_timer key); enabled := false |}).
Proof.
  intros Hkey Hdiff.
  unfold key_at, Key_tick_key, mbind, St_bind, get_state, digitalRead_is_LOW.
  rewrite Hkey.
  destruct (Bool.eqb (was_down key) (hw_low hw (observations b) (pin key)))
    eqn:E.
  { apply eqb_prop in E. contradiction. }
  cbn [negb]. unfold check_now, mbind, St_bind, micros, mret, St_ret.
  fold (clock hw (Board.observe b)).
  destruct (fst (Timer.check (clock hw (Board.observe b))
                             (debounce_timer key))) eqn:Hexpired;
    destruct (await_smoothness (static_state b)); cbn [negb orb];
    cbn; repeat rewrite list_lookup_alter_eq; rewrite Hkey; cbn;
    try reflexivity.
  unfold Timer.check in *. cbn [fst snd] in *. rewrite Hexpired. reflexivity.
Qed.

Lemma Key_tick_key_rearms_timer_witness :
  keys (static_state streaming_board) !! Z.to_nat 0
  = Some {| pin := 5; was_down := false;
            debounce_timer := {| timeout := 0; enabled := false |} |}
  /\ was_down {| pin := 5; was_down := false;
                 debounce_timer := {| timeout := 0; enabled := false |} |}
     <> hw_low held_hw (observations streaming_board)
          (pin {| pin := 5; was_down := false;
                  debounce_timer := {| timeout := 0; enabled := false |} |})
  /\ debounce_timer
       <$> key_at (Z.to_nat 0) (snd (Key_tick_key held_hw 0 streaming_board))
     = Some
         (if await_smoothness (static_state streaming_board)
             || negb (fst (Timer.check
                             (clock held_hw (Board.observe streaming_board))
                             (debounce_timer
                                {| pin := 5; was_down := false;
                                   debounce_timer :=
                                     {| timeout := 0; enabled := false |} |})))
          then {| timeout :=
                    wrap32 (clock held_hw
                              (Board.observe (Board.observe streaming_board))
                            + debounce_micros (static_state streaming_board));
                  enabled := true |}
          else {| timeout :=
                    timeout
                      (debounce_timer
                         {| pin := 5; was_down := false;
                            debounce_timer :=
                              {| timeout := 0; enabled := false |} |});
                  enabled := false |}).
Proof.
  split; [vm_compute; reflexivity|].
  split; [vm_compute; discriminate|].
  apply (Key_tick_key_rearms_timer held_hw 0 streaming_board
           {| pin := 5; was_down := false;
              debounce_timer := {| timeout := 0; enabled := false |} |}).
  - vm_compute. reflexivity.
  - vm_compute. discriminate.
Defined.
